(** * Fresh Eats client UI: the subscription-driven view model of [src/App.js]

    A shallow embedding of the storefront component: start-up configuration,
    the Firestore snapshot listener, the derived view model (available
    products, category filter list, products grouped by category) and the
    rendering dispatch of [renderProductList].

    JavaScript strings are modelled by [string]; one [ascii] stands for one
    UTF-16 code unit, so the model covers category names made of code units
    below 256.  Numbers ([price]) are only stored, never computed with, and
    are carried as rationals. *)

From Stdlib Require Import List String Ascii Bool PeanoNat NArith QArith Lia.
From Stdlib Require Import Sorting.Sorted Sorting.Permutation.
Import ListNotations.
Local Open Scope string_scope.
Local Open Scope list_scope.
Local Open Scope nat_scope.

Set Implicit Arguments.
Set Warnings "-register-all".

(** ** JavaScript primitives the component relies on *)

Module Js.

(** [Boolean(s)] and [if (s)] on a string: only the empty string is falsy. *)
Definition truthy (s : string) : bool := negb (s =? "")%string.

(** [Boolean(v)] on a value that is [undefined] or a string. *)
Definition Boolean (v : option string) : bool :=
  match v with
  | Some s => truthy s
  | None => false
  end.

(** [l.filter(Boolean)] on an array of such values; the survivors are
    non-empty strings. *)
Definition filter_Boolean (l : list (option string)) : list string :=
  flat_map (fun v => match v with
                     | Some s => if Boolean v then [s] else []
                     | None => []
                     end) l.

(** [v || fallback] on a value that is [undefined] or a string. *)
Definition or_else (v : option string) (fallback : string) : string :=
  match v with
  | Some s => if truthy s then s else fallback
  | None => fallback
  end.

(** [v === s] where [v] is [undefined] or a string and [s] a string. *)
Definition strict_eq (v : option string) (s : string) : bool :=
  match v with
  | Some c => (c =? s)%string
  | None => false
  end.

(** A thrown [Error]; only its [message] is ever read. *)
Record Error := { message : string }.

Section Arrays.
Variable A : Type.
Variable leb : A -> A -> bool.

Fixpoint insert (x : A) (l : list A) : list A :=
  match l with
  | [] => [x]
  | y :: l' => if leb x y then x :: l else y :: insert x l'
  end.

(** [Array.prototype.sort]: a stable sort; elements are inserted from the
    right, so equal elements keep their relative order. *)
Definition sort (l : list A) : list A := fold_right insert [] l.

(** [Array.prototype.reduce] with a callback that may throw. *)
Fixpoint reduce (B : Type) (f : B -> A -> Error + B) (l : list A) (acc : B)
  : Error + B :=
  match l with
  | [] => inr acc
  | x :: l' =>
      match f acc x with
      | inl e => inl e
      | inr acc' => reduce f l' acc'
      end
  end.
End Arrays.

(** [[...new Set(l)]]: the distinct elements in order of first occurrence. *)
Fixpoint Set_of (l : list string) : list string :=
  match l with
  | [] => []
  | x :: l' => x :: filter (fun y => negb (y =? x)%string) (Set_of l')
  end.

(** The default comparator of [sort()]: code units, lexicographically. *)
Definition sort_strings : list string -> list string := sort String.leb.

End Js.

(** ** Plain objects used as insertion-ordered maps

    [{}] has [Object.prototype] as its prototype: reading a key finds an own
    property, else an inherited member, else [undefined].  Own keys enumerate
    array-index keys first, in ascending numeric order, then the remaining
    keys in creation order (ECMAScript OrdinaryOwnPropertyKeys). *)

Module JsObject.

Section WithValues.
Variable V : Type.

(** Own properties, in creation order. *)
Definition t := list (string * V).

Definition empty : t := [].

Fixpoint getOwn (o : t) (k : string) : option V :=
  match o with
  | [] => None
  | (k', v) :: o' => if (k' =? k)%string then Some v else getOwn o' k
  end.

(** [o[k] = v]: overwrite in place, or create the key last. *)
Fixpoint set (o : t) (k : string) (v : V) : t :=
  match o with
  | [] => [(k, v)]
  | (k', v') :: o' =>
      if (k' =? k)%string then (k', v) :: o' else (k', v') :: set o' k v
  end.

Inductive Read :=
| Own (v : V)
| Inherited
| Undefined.

(** Members of [Object.prototype]; every one of them is truthy and none
    has a [push] method. *)
Definition prototype_keys : list string :=
  [ "constructor"; "__defineGetter__"; "__defineSetter__";
    "hasOwnProperty"; "__lookupGetter__"; "__lookupSetter__";
    "isPrototypeOf"; "propertyIsEnumerable"; "toString"; "valueOf";
    "__proto__"; "toLocaleString" ].

Definition inherited (k : string) : bool :=
  existsb (String.eqb k) prototype_keys.

(** [o[k]] *)
Definition get (o : t) (k : string) : Read :=
  match getOwn o k with
  | Some v => Own v
  | None => if inherited k then Inherited else Undefined
  end.

Definition digit (c : ascii) : option N :=
  let n := N_of_ascii c in
  if ((48 <=? n) && (n <=? 57))%N then Some (n - 48)%N else None.

Fixpoint digits (s : string) (acc : N) : option N :=
  match s with
  | EmptyString => Some acc
  | String c s' =>
      match digit c with
      | Some d => digits s' (10 * acc + d)%N
      | None => None
      end
  end.

(** The array index a key denotes: a canonical decimal numeral (no
    leading zero) below 2^32 - 1. *)
Definition array_index (k : string) : option N :=
  match k with
  | EmptyString => None
  | String "0" EmptyString => Some 0%N
  | String "0" _ => None
  | _ =>
      match digits k 0 with
      | Some n => if (n <? 4294967295)%N then Some n else None
      | None => None
      end
  end.

Definition is_index (k : string) : bool :=
  match array_index k with Some _ => true | None => false end.

Definition indexed (o : t) : list (N * (string * V)) :=
  flat_map (fun kv => match array_index (fst kv) with
                      | Some n => [(n, kv)]
                      | None => []
                      end) o.

(** [Object.entries(o)] *)
Definition entries (o : t) : list (string * V) :=
  map snd (Js.sort (fun a b => (fst a <=? fst b)%N) (indexed o))
    ++ filter (fun kv => negb (is_index (fst kv))) o.

Definition keys (o : t) : list string := map fst (entries o).
End WithValues.

Arguments Inherited {V}.
Arguments Undefined {V}.
Arguments empty {V}.

(** Truthiness of a property read: arrays and inherited members are
    truthy, [undefined] is not. *)
Definition truthy {V} (r : Read V) : bool :=
  match r with
  | Own _ | Inherited => true
  | Undefined => false
  end.

End JsObject.

(** ** Data model *)

Module Product.
(** A product as the component sees it: the document's fields with the
    store-assigned [id].  Absent optional fields are [None] ([undefined]). *)
Record t := {
  id : string;
  name : string;
  description : option string;
  price : option Q;
  category : option string;
  available : bool
}.
End Product.

(** The field data of a Firestore document, [doc.data()]. *)
Record DocumentData := {
  data_id : option string;
  data_name : string;
  data_description : option string;
  data_price : option Q;
  data_category : option string;
  data_available : bool
}.

(** A document of a query snapshot: [doc.id], and [doc.data()] which either
    returns the fields or throws. *)
Record QueryDocumentSnapshot := {
  doc_id : string;
  data : Js.Error + DocumentData
}.

(** ** The view-model derivation (App.js, snapshot callback and render body) *)

(** [{ id: doc.id, ...doc.data() }]: a field named [id] in the data
    overrides the store-assigned identifier. *)
Definition toProduct (doc_id : string) (d : DocumentData) : Product.t :=
  {| Product.id := match data_id d with Some i => i | None => doc_id end;
     Product.name := data_name d;
     Product.description := data_description d;
     Product.price := data_price d;
     Product.category := data_category d;
     Product.available := data_available d |}.

(** [snapshot.docs.map(doc => ({ id: doc.id, ...doc.data() }))] *)
Fixpoint productList (docs : list QueryDocumentSnapshot)
  : Js.Error + list Product.t :=
  match docs with
  | [] => inr []
  | doc :: docs' =>
      match data doc with
      | inl e => inl e
      | inr d =>
          match productList docs' with
          | inl e => inl e
          | inr ps => inr (toProduct (doc_id doc) d :: ps)
          end
      end
  end.

(** [productList.filter(p => p.available)] *)
Definition availableProducts (productList : list Product.t) : list Product.t :=
  filter Product.available productList.

(** [['All', ...new Set(productList.map(p => p.category).filter(Boolean))].sort()] *)
Definition uniqueCategories (productList : list Product.t) : list string :=
  Js.sort_strings
    ("All" :: Js.Set_of
                (Js.filter_Boolean (map Product.category productList))).

(** [products.filter(product => activeCategory === 'All'
                               || product.category === activeCategory)] *)
Definition filteredProducts (products : list Product.t) (activeCategory : string)
  : list Product.t :=
  filter (fun product =>
            (activeCategory =? "All")%string
            || Js.strict_eq (Product.category product) activeCategory)
         products.

Definition Grouped := JsObject.t (list Product.t).

(** The reducer callback of [productsGroupedByCategory]. *)
Definition groupStep (acc : Grouped) (product : Product.t)
  : Js.Error + Grouped :=
  let category := Js.or_else (Product.category product) "Uncategorized" in
  let acc :=
    if negb (JsObject.truthy (JsObject.get acc category))
    then JsObject.set acc category []
    else acc in
  match JsObject.get acc category with
  | JsObject.Own items => inr (JsObject.set acc category (items ++ [product]))
  | _ => inl {| Js.message := "acc[category].push is not a function" |}
  end.

(** [filteredProducts.reduce((acc, product) => ..., {})] *)
Definition productsGroupedByCategory (filteredProducts : list Product.t)
  : Js.Error + Grouped :=
  Js.reduce groupStep filteredProducts JsObject.empty.

(** ** Start-up configuration (module level of App.js) *)

Module Json.
(** What [JSON.parse] returns.  An object lists its own properties (each
    key once). *)
Inductive t :=
| Null
| Bool (b : bool)
| Number (q : Q)
| Str (s : string)
| Array (items : list t)
| Object (fields : list (string * t)).

(** [!!j] *)
Definition truthy (j : t) : bool :=
  match j with
  | Null => false
  | Bool b => b
  | Number q => negb (Qeq_bool q 0)
  | Str s => Js.truthy s
  | Array _ | Object _ => true
  end.

Fixpoint lookup (fields : list (string * t)) (k : string) : option t :=
  match fields with
  | [] => None
  | (k', v) :: fields' => if (k' =? k)%string then Some v else lookup fields' k
  end.

(** [!!j.projectId] for a non-null [j]: only an object carries the field. *)
Definition has_projectId (j : t) : bool :=
  match j with
  | Object fields =>
      match lookup fields "projectId" with
      | Some v => truthy v
      | None => false
      end
  | _ => false
  end.
End Json.

Definition FALLBACK_FIREBASE_CONFIG : Json.t :=
  Json.Object
    [ ("apiKey", Json.Str "MOCK_API_KEY");
      ("authDomain", Json.Str "mock-auth-domain.firebaseapp.com");
      ("projectId", Json.Str "mock-project-id");
      ("storageBucket", Json.Str "mock-storage-bucket.appspot.com");
      ("messagingSenderId", Json.Str "MOCK_SENDER_ID");
      ("appId", Json.Str "MOCK_APP_ID") ].

Definition DEFAULT_APP_ID : string := "fresh-eats-admin-dev".

(** What the variable [firebaseConfig] refers to: the module's own fallback
    object, or a value freshly built by [JSON.parse]. *)
Inductive ConfigRef :=
| Fallback
| Parsed (j : Json.t).

Definition deref (r : ConfigRef) : Json.t :=
  match r with
  | Fallback => FALLBACK_FIREBASE_CONFIG
  | Parsed j => j
  end.

(** [r === FALLBACK_FIREBASE_CONFIG]: identity of objects, not of contents. *)
Definition is_FALLBACK_FIREBASE_CONFIG (r : ConfigRef) : bool :=
  match r with
  | Fallback => true
  | Parsed _ => false
  end.

(** The two injected globals; [None] is [typeof x === 'undefined']. *)
Record Globals := {
  __app_id : option string;
  __firebase_config : option string
}.

(** [const getProductCollectionPath = (appId) => `/artifacts/${appId}/public/data/products`] *)
Definition getProductCollectionPath (appId : string) : string :=
  ("/artifacts/" ++ appId ++ "/public/data/products")%string.

Section Startup.
(** [JSON.parse] of the platform: a value, or a thrown [SyntaxError]. *)
Variable JSON_parse : string -> Js.Error + Json.t.

Definition appId (g : Globals) : string :=
  match __app_id g with
  | Some a => a
  | None => DEFAULT_APP_ID
  end.

Definition firebaseConfig (g : Globals) : ConfigRef :=
  match __firebase_config g with
  | Some blob =>
      if Js.truthy blob
      then match JSON_parse blob with
           | inr j => Parsed j
           | inl _ => Fallback
           end
      else Fallback
  | None => Fallback
  end.

Definition isFallback (g : Globals) : bool :=
  is_FALLBACK_FIREBASE_CONFIG (firebaseConfig g).

Definition dataAppId (g : Globals) : string :=
  if isFallback g then DEFAULT_APP_ID else appId g.

(** The path handed to [collection(db, ...)] by the listener effect. *)
Definition subscriptionPath (g : Globals) : string :=
  getProductCollectionPath (dataAppId g).
End Startup.

(** ** Component state *)

(** The values [setError] is called with, one constructor per call site. *)
Inductive ErrorMessage :=
| InitializationFailed
| InitializationError (message : string)
| DataFetchFailed (message : string)
| RealTimeDataError (message : string).

Definition error_text (e : ErrorMessage) : string :=
  match e with
  | InitializationFailed =>
      "Initialization Failed: Firebase configuration is missing or invalid."
  | InitializationError m => "Initialization Error: " ++ m
  | DataFetchFailed m =>
      "Data fetch failed: " ++ m ++ ". Please verify Firestore rules."
  | RealTimeDataError m =>
      "Real-time data error: " ++ m ++ ". Please verify Firestore rules."
  end%string.

(** The six [useState] cells of [App] and the module-level handle [db]
    ([true] once [getFirestore] has returned). *)
Record State := {
  products : list Product.t;
  loading : bool;
  error : option ErrorMessage;
  isAuthReady : bool;
  categories : list string;
  activeCategory : string;
  db : bool
}.

Definition initialState : State :=
  {| products := []; loading := true; error := None; isAuthReady := false;
     categories := []; activeCategory := "All"; db := false |}.

Definition setProducts (v : list Product.t) (s : State) : State :=
  {| products := v; loading := loading s; error := error s;
     isAuthReady := isAuthReady s; categories := categories s;
     activeCategory := activeCategory s; db := db s |}.

Definition setLoading (v : bool) (s : State) : State :=
  {| products := products s; loading := v; error := error s;
     isAuthReady := isAuthReady s; categories := categories s;
     activeCategory := activeCategory s; db := db s |}.

Definition setError (v : ErrorMessage) (s : State) : State :=
  {| products := products s; loading := loading s; error := Some v;
     isAuthReady := isAuthReady s; categories := categories s;
     activeCategory := activeCategory s; db := db s |}.

Definition setIsAuthReady (v : bool) (s : State) : State :=
  {| products := products s; loading := loading s; error := error s;
     isAuthReady := v; categories := categories s;
     activeCategory := activeCategory s; db := db s |}.

Definition setCategories (v : list string) (s : State) : State :=
  {| products := products s; loading := loading s; error := error s;
     isAuthReady := isAuthReady s; categories := v;
     activeCategory := activeCategory s; db := db s |}.

Definition setActiveCategory (v : string) (s : State) : State :=
  {| products := products s; loading := loading s; error := error s;
     isAuthReady := isAuthReady s; categories := categories s;
     activeCategory := v; db := db s |}.

Definition setDb (s : State) : State :=
  {| products := products s; loading := loading s; error := error s;
     isAuthReady := isAuthReady s; categories := categories s;
     activeCategory := activeCategory s; db := true |}.

(** [if (error)]: the state is [null] or one of the message strings. *)
Definition error_truthy (e : option ErrorMessage) : bool :=
  match e with
  | Some m => Js.truthy (error_text m)
  | None => false
  end.

(** ** Effects and callbacks *)

(** How the Firebase calls of the first effect end: they return, or one of
    them throws. *)
Inductive SdkInit :=
| SdkReady
| SdkThrows (e : Js.Error).

(** The first [useEffect]: configuration check and SDK initialisation.  The
    auth listener it registers reports later, as [AuthStateChanged]. *)
Definition initEffect (cfg : ConfigRef) (sdk : SdkInit) (s : State) : State :=
  if negb (Json.truthy (deref cfg)) || negb (Json.has_projectId (deref cfg))
  then setIsAuthReady true (setError InitializationFailed s)
  else
    match sdk with
    | SdkReady => setDb s
    | SdkThrows e =>
        setIsAuthReady true (setError (InitializationError (Js.message e)) s)
    end.

(** The guard of the second [useEffect], [isAuthReady && db && !error]:
    the effect returns at once while it is false, and goes on to subscribe
    when it is true.  [collection], [query] and [onSnapshot] then run outside
    any [try]; a throw there is not modelled, it would only take deliveries
    away. *)
Definition listening (s : State) : bool :=
  isAuthReady s && db s && negb (error_truthy (error s)).

(** The [onSnapshot] success callback, [try] body and [catch]. *)
Definition onSnapshotNext (docs : list QueryDocumentSnapshot) (s : State)
  : State :=
  match productList docs with
  | inr pl =>
      setCategories (uniqueCategories pl)
        (setLoading false (setProducts (availableProducts pl) s))
  | inl e =>
      setLoading false (setError (DataFetchFailed (Js.message e)) s)
  end.

(** The [onSnapshot] error callback. *)
Definition onSnapshotError (e : Js.Error) (s : State) : State :=
  setLoading false (setError (RealTimeDataError (Js.message e)) s).

(** The buttons of [renderCategoryFilter], shown when there are at least two
    categories. *)
Definition categoryButtons (s : State) : list string :=
  if 1 <? List.length (categories s) then categories s else [].

Inductive Event :=
| AuthStateChanged
| SnapshotDelivered (docs : list QueryDocumentSnapshot)
| SnapshotFailed (e : Js.Error)
| CategoryClicked (cat : string).

(** One event of the UI loop.  Snapshot callbacks fire only while the
    listener guard passes; the auth callback exists only once the SDK is
    initialised; only a rendered button can be clicked.  A render that
    throws unmounts the component, after which nothing is delivered; [run]
    does not cut a sequence short there, so what holds of every [run] holds
    of the runs of the mounted component. *)
Definition step (s : State) (ev : Event) : State :=
  match ev with
  | AuthStateChanged => if db s then setIsAuthReady true s else s
  | SnapshotDelivered docs => if listening s then onSnapshotNext docs s else s
  | SnapshotFailed e => if listening s then onSnapshotError e s else s
  | CategoryClicked cat =>
      if existsb (String.eqb cat) (categoryButtons s)
      then setActiveCategory cat s
      else s
  end.

Definition run (s : State) (evs : list Event) : State := fold_left step evs s.

(** ** Rendering *)

Inductive View :=
| ViewLoading
| ViewError (text : string) (mockDatabaseNote : bool)
| ViewEmpty (adminAppNote : bool)
| ViewPopulated (sections : list (string * list Product.t)).

(** [renderProductList], closed over the component's state, [isFallback] and
    the grouped object computed by the render body. *)
Definition renderProductList (isFallback : bool) (loading : bool)
  (error : option ErrorMessage) (products : list Product.t)
  (grouped : Grouped) : View :=
  if loading then ViewLoading
  else if error_truthy error then
    ViewError (match error with Some m => error_text m | None => "" end)
              isFallback
  else if List.length products =? 0 then ViewEmpty isFallback
  else ViewPopulated (JsObject.entries grouped).

(** What one render of [App] puts on the page below the header. *)
Record Page := {
  filterStrip : list string;
  main : View
}.

(** The body of [App]: the grouped object is computed on every render, so a
    throwing reducer aborts the render whatever the state. *)
Definition App (isFallback : bool) (s : State) : Js.Error + Page :=
  match productsGroupedByCategory
          (filteredProducts (products s) (activeCategory s)) with
  | inl e => inl e
  | inr grouped =>
      inr {| filterStrip := categoryButtons s;
             main := renderProductList isFallback (loading s) (error s)
                       (products s) grouped |}
  end.

(** The four render states, without their payload. *)
Inductive ViewKind :=
| Loading
| Error
| Empty
| Populated.

Definition kind (v : View) : ViewKind :=
  match v with
  | ViewLoading => Loading
  | ViewError _ _ => Error
  | ViewEmpty _ => Empty
  | ViewPopulated _ => Populated
  end.

(** ** Derived notions used in the statements *)

(** The heading a product is grouped under. *)
Definition groupName (p : Product.t) : string :=
  Js.or_else (Product.category p) "Uncategorized".

(** The distinct group names of a list, in order of first occurrence. *)
Definition firstOccurrence (l : list Product.t) : list string :=
  Js.Set_of (map groupName l).

(** The enumeration order of own keys created in the order [ks]. *)
Definition ownKeyOrder (ks : list string) : list string :=
  map snd
    (Js.sort (fun a b => (fst a <=? fst b)%N)
       (flat_map (fun k => match JsObject.array_index k with
                           | Some n => [(n, k)]
                           | None => []
                           end) ks))
    ++ filter (fun k => negb (JsObject.is_index k)) ks.

(** Own keys after creating, in order, those of [l] not present yet. *)
Fixpoint createKeys (ks l : list string) : list string :=
  match l with
  | [] => ks
  | k :: l' =>
      createKeys (if existsb (String.eqb k) ks then ks else ks ++ [k]) l'
  end.

(** Every product stored in a grouped object. *)
Definition members (o : Grouped) : list Product.t := flat_map snd o.

(** The group [k] of [o] holds [p]. *)
Definition holds (o : Grouped) (k : string) (p : Product.t) : Prop :=
  exists items, JsObject.getOwn o k = Some items /\ In p items.


(** [p] is grouped under [k]. *)
Definition inGroup (k : string) (p : Product.t) : bool :=
  (groupName p =? k)%string.

(** The first effect's configuration check passes:
    [firebaseConfig && firebaseConfig.projectId]. *)
Definition usable (cfg : ConfigRef) : bool :=
  Json.truthy (deref cfg) && Json.has_projectId (deref cfg).

(** The component after its first effect has run. *)
Definition mounted (cfg : ConfigRef) (sdk : SdkInit) : State :=
  initEffect cfg sdk initialState.

(** The categories cell is still the initial [[]] or holds a sorted list
    with "All" in it. *)
Definition categoriesShape (cats : list string) : Prop :=
  cats = []
  \/ (In "All" cats /\ Sorted (fun a b => String.leb a b = true) cats).

(** What every state of the mounted component satisfies. *)
Definition Invariant (s : State) : Prop :=
  Forall (fun p => Product.available p = true) (products s)
  /\ categoriesShape (categories s)
  /\ (loading s = false -> isAuthReady s = true /\ db s = true)
  /\ (loading s = true -> products s = [] /\ categories s = []).

(** The message of the [TypeError] the reducer throws. *)
Definition pushTypeError : Js.Error :=
  {| Js.message := "acc[category].push is not a function" |}.

(** The first document of a snapshot whose [data()] throws. *)
Fixpoint firstThrow (docs : list QueryDocumentSnapshot) : option Js.Error :=
  match docs with
  | [] => None
  | doc :: docs' =>
      match data doc with
      | inl e => Some e
      | inr _ => firstThrow docs'
      end
  end.

(** ** Sample inputs *)

Module Sample.

Definition document (id name : string) (category : option string)
  (price : Q) (available : bool) : QueryDocumentSnapshot :=
  {| doc_id := id;
     data := inr {| data_id := None; data_name := name;
                    data_description := None; data_price := Some price;
                    data_category := category;
                    data_available := available |} |}.

Definition item (id name : string) (category : option string)
  (price : Q) (available : bool) : Product.t :=
  {| Product.id := id; Product.name := name; Product.description := None;
     Product.price := Some price; Product.category := category;
     Product.available := available |}.

(** A stand-in for [JSON.parse] that accepts three JSON texts and rejects
    every other string; on the texts used below it agrees with the
    platform's parser. *)
Definition JSON_parse (text : string) : Js.Error + Json.t :=
  if (text =? "{}")%string then inr (Json.Object [])
  else if (text =? "null")%string then inr Json.Null
  else if (text =? "[]")%string then inr (Json.Array [])
  else inl {| Js.message := "Unexpected token in JSON" |}.

Definition Soup : Product.t := item "1" "Soup" (Some "Starters") (9 # 2) true.
Definition Cake : Product.t := item "2" "Cake" (Some "Desserts") (6 # 1) false.

Definition menuDocs : list QueryDocumentSnapshot :=
  [ document "1" "Soup" (Some "Starters") (9 # 2) true;
    document "2" "Cake" (Some "Desserts") (6 # 1) false ].

(** The component once the SDK is initialised and the auth callback has
    run: the listener guard passes. *)
Definition subscribed : State :=
  run (initEffect Fallback SdkReady initialState) [AuthStateChanged].

Definition threeDocs : list QueryDocumentSnapshot :=
  [ document "a" "Soup" (Some "Starters") (9 # 2) true;
    document "b" "Stew" (Some "Mains") (12 # 1) true;
    document "c" "Flan" (Some "Desserts") (5 # 1) true ].

Definition Cheese : Product.t :=
  item "1" "Extra cheese" (Some "Add-ons") (1 # 1) true.
Definition Platter : Product.t := item "2" "Platter" (Some "All") (20 # 1) true.

Definition Port : Product.t := item "2" "Port" (Some "2024") (8 # 1) true.

Definition Mug : Product.t := item "g" "Mug" (Some "constructor") (7 # 1) true.




Definition Bread : Product.t := item "1" "Bread" (Some "") (2 # 1) true.
Definition Olives : Product.t :=
  item "2" "Olives" (Some "Uncategorized") (4 # 1) true.

End Sample.

(** * Properties *)

(** ** Rendering dispatch *)

Lemma error_text_truthy (m : ErrorMessage) : Js.truthy (error_text m) = true.
Proof. destruct m; reflexivity. Qed.

Lemma error_truthy_Some (m : ErrorMessage) : error_truthy (Some m) = true.
Proof. apply error_text_truthy. Qed.

Lemma error_truthy_false (e : option ErrorMessage) :
  error_truthy e = false -> e = None.
Proof.
  destruct e as [m|]; [|reflexivity].
  rewrite error_truthy_Some. discriminate.
Qed.

Lemma availableProducts_nil_of_unavailable (raw : list Product.t) :
  Forall (fun p => Product.available p = false) raw ->
  availableProducts raw = [].
Proof.
  induction 1 as [|p raw Hp _ IH]; simpl; [reflexivity|].
  rewrite Hp. exact IH.
Qed.

(** C4. [renderProductList] shows exactly one of Loading, Error, Empty and
    Populated, decided in that order: Loading whenever [loading] is set; else
    Error whenever [error] is not null; else Empty when the list of available
    products is empty; else Populated.  Empty is shown exactly when [loading]
    is false, [error] is null and no product is available, however many
    unavailable products the snapshot held. *)
Theorem renderProductList_dispatch :
  forall (isFallback loading : bool) (error : option ErrorMessage)
         (products : list Product.t) (grouped : Grouped),
    let view := renderProductList isFallback loading error products grouped in
    kind view =
      (if loading then Loading
       else match error with
            | Some _ => Error
            | None => match products with
                      | [] => Empty
                      | _ :: _ => Populated
                      end
            end)
    /\ (kind view = Empty <->
        loading = false /\ error = None /\ List.length products = 0)
    /\ (forall raw : list Product.t,
          Forall (fun p => Product.available p = false) raw ->
          kind (renderProductList isFallback false None
                  (availableProducts raw) grouped) = Empty).
Proof.
  intros isFallback loading error products grouped view.
  assert (Hkind : kind view =
      (if loading then Loading
       else match error with
            | Some _ => Error
            | None => match products with
                      | [] => Empty
                      | _ :: _ => Populated
                      end
            end)).
  { subst view. unfold renderProductList.
    destruct loading; [reflexivity|].
    destruct error as [m|].
    - rewrite error_truthy_Some. reflexivity.
    - destruct products; reflexivity. }
  split; [exact Hkind|]. split.
  - rewrite Hkind. split.
    + destruct loading; [discriminate|].
      destruct error; [discriminate|].
      destruct products; [auto|discriminate].
    + intros (-> & -> & Hlen). destruct products; [reflexivity|discriminate].
  - intros raw Hraw. rewrite (availableProducts_nil_of_unavailable Hraw).
    reflexivity.
Qed.

(** ** Start-up configuration *)

(** C6. The listener subscribes to exactly
    [/artifacts/{tenantId}/public/data/products]; the tenant identifier is
    the built-in [fresh-eats-admin-dev] whenever the fallback configuration
    is active, and the externally supplied identifier otherwise (the
    built-in one again when none was supplied). *)
Theorem subscriptionPath_tenant :
  forall (JSON_parse : string -> Js.Error + Json.t) (g : Globals),
    (isFallback JSON_parse g = true ->
     subscriptionPath JSON_parse g
       = "/artifacts/fresh-eats-admin-dev/public/data/products")
    /\ (forall tenantId : string,
          isFallback JSON_parse g = false ->
          __app_id g = Some tenantId ->
          subscriptionPath JSON_parse g
            = ("/artifacts/" ++ tenantId ++ "/public/data/products")%string)
    /\ (isFallback JSON_parse g = false ->
        __app_id g = None ->
        subscriptionPath JSON_parse g
          = "/artifacts/fresh-eats-admin-dev/public/data/products").
Proof.
  intros JSON_parse g. unfold subscriptionPath, dataAppId, appId.
  split; [|split].
  - intros ->. reflexivity.
  - intros tenantId -> ->. reflexivity.
  - intros -> ->. reflexivity.
Qed.

(** C7. When the injected configuration blob is absent, empty, or rejected
    by [JSON.parse], [firebaseConfig] is the built-in fallback object and
    [isFallback] is true. *)
Theorem firebaseConfig_fallback :
  forall (JSON_parse : string -> Js.Error + Json.t) (g : Globals),
    __firebase_config g = None
    \/ __firebase_config g = Some ""
    \/ (exists blob e, __firebase_config g = Some blob
                       /\ JSON_parse blob = inl e) ->
    firebaseConfig JSON_parse g = Fallback
    /\ deref (firebaseConfig JSON_parse g) = FALLBACK_FIREBASE_CONFIG
    /\ isFallback JSON_parse g = true.
Proof.
  intros JSON_parse g H.
  assert (Hcfg : firebaseConfig JSON_parse g = Fallback).
  { unfold firebaseConfig.
    destruct H as [-> | [-> | (blob & e & -> & Hparse)]];
      [reflexivity | reflexivity |].
    rewrite Hparse. destruct (Js.truthy blob); reflexivity. }
  unfold isFallback. rewrite Hcfg. repeat split.
Qed.

Lemma firebaseConfig_fallback_witness :
  let g := {| __app_id := Some "tenant-42";
              __firebase_config := Some "{apiKey: oops" |} in
  firebaseConfig Sample.JSON_parse g = Fallback
  /\ deref (firebaseConfig Sample.JSON_parse g) = FALLBACK_FIREBASE_CONFIG
  /\ isFallback Sample.JSON_parse g = true.
Proof.
  apply (firebaseConfig_fallback Sample.JSON_parse).
  right. right. exists "{apiKey: oops".
  exists {| Js.message := "Unexpected token in JSON" |}.
  split; reflexivity.
Defined.

(** ** The sticky error state *)

Lemma listening_error (s : State) (m : ErrorMessage) :
  error s = Some m -> listening s = false.
Proof.
  intros H. unfold listening. rewrite H, error_truthy_Some.
  now rewrite andb_false_r.
Qed.





(** ** Arrays, sets and objects *)

Section SortFacts.
Variables (A B : Type) (leA : A -> A -> bool) (leB : B -> B -> bool).
Variable f : A -> B.
Hypothesis f_mono : forall a b, leA a b = leB (f a) (f b).

Lemma In_insert (x y : A) (l : list A) :
  In y (Js.insert leA x l) <-> y = x \/ In y l.
Proof.
  induction l as [|z l IH]; simpl.
  - intuition congruence.
  - destruct (leA x z); simpl; [intuition congruence|].
    rewrite IH. intuition congruence.
Qed.

Lemma In_sort (y : A) (l : list A) : In y (Js.sort leA l) <-> In y l.
Proof.
  unfold Js.sort.
  induction l as [|x l IH]; simpl; [tauto|].
  rewrite In_insert, IH. intuition congruence.
Qed.

Lemma map_insert (x : A) (l : list A) :
  map f (Js.insert leA x l) = Js.insert leB (f x) (map f l).
Proof.
  induction l as [|z l IH]; simpl; [reflexivity|].
  rewrite <- f_mono. destruct (leA x z); simpl; [reflexivity|].
  now rewrite IH.
Qed.

Lemma map_sort (l : list A) : map f (Js.sort leA l) = Js.sort leB (map f l).
Proof.
  unfold Js.sort.
  induction l as [|x l IH]; simpl; [reflexivity|].
  now rewrite map_insert, IH.
Qed.
End SortFacts.

Lemma HdRel_insert (x y : string) (l : list string) :
  String.leb y x = true ->
  HdRel (fun a b => String.leb a b = true) y l ->
  HdRel (fun a b => String.leb a b = true) y (Js.insert String.leb x l).
Proof.
  intros Hyx Hl. destruct l as [|z l]; simpl.
  - now constructor.
  - destruct (String.leb x z); constructor; [exact Hyx|].
    now inversion Hl.
Qed.

Lemma Sorted_insert (x : string) (l : list string) :
  Sorted (fun a b => String.leb a b = true) l ->
  Sorted (fun a b => String.leb a b = true) (Js.insert String.leb x l).
Proof.
  induction 1 as [|y l Hsorted IH Hhd]; simpl.
  - repeat constructor.
  - destruct (String.leb x y) eqn:Hxy.
    + constructor; [now constructor|]. now constructor.
    + constructor; [exact IH|].
      apply HdRel_insert; [|exact Hhd].
      destruct (String.leb_total x y) as [H|H]; [congruence|exact H].
Qed.

(** The default [sort()] leaves an array of strings in ascending order. *)
Lemma Sorted_sort_strings (l : list string) :
  Sorted (fun a b => String.leb a b = true) (Js.sort_strings l).
Proof.
  unfold Js.sort_strings, Js.sort.
  induction l as [|x l IH]; simpl; [constructor|].
  now apply Sorted_insert.
Qed.

Lemma In_Set_of (x : string) (l : list string) : In x (Js.Set_of l) <-> In x l.
Proof.
  induction l as [|y l IH]; simpl; [tauto|].
  rewrite filter_In, IH, negb_true_iff, String.eqb_neq.
  destruct (string_dec y x); intuition congruence.
Qed.

Lemma In_filter_Boolean (c : string) (l : list (option string)) :
  In c (Js.filter_Boolean l) <-> In (Some c) l /\ c <> "".
Proof.
  unfold Js.filter_Boolean. rewrite in_flat_map. split.
  - intros ([s|] & Hin & Hc); simpl in Hc; [|contradiction].
    unfold Js.truthy in Hc. destruct (String.eqb_spec s ""); simpl in Hc;
      [contradiction|].
    destruct Hc as [->|[]]. auto.
  - intros [Hin Hne]. exists (Some c). split; [exact Hin|].
    simpl. unfold Js.truthy. destruct (String.eqb_spec c ""); simpl; tauto.
Qed.

(** Membership in the category filter list. *)
Lemma In_uniqueCategories (c : string) (raw : list Product.t) :
  In c (uniqueCategories raw) <->
  c = "All" \/ (c <> "" /\ exists p, In p raw /\ Product.category p = Some c).
Proof.
  unfold uniqueCategories, Js.sort_strings.
  rewrite In_sort. simpl. rewrite In_Set_of, In_filter_Boolean, in_map_iff.
  split.
  - intros [<- | [(p & Hc & Hp) Hne]]; [now left|].
    right. split; [exact Hne|]. now exists p.
  - intros [-> | [Hne (p & Hp & Hc)]]; [now left|].
    right. split; [|exact Hne]. now exists p.
Qed.

Section ObjectFacts.
Variable V : Type.
Implicit Types (o : JsObject.t V) (k : string) (v : V).

Lemma getOwn_set_same o k v : JsObject.getOwn (JsObject.set o k v) k = Some v.
Proof.
  induction o as [|[k' v'] o IH]; simpl.
  - now rewrite String.eqb_refl.
  - destruct (String.eqb_spec k' k) as [->|Hne]; simpl.
    + now rewrite String.eqb_refl.
    + destruct (String.eqb_spec k' k); [contradiction|exact IH].
Qed.

Lemma getOwn_set_other o k k' v :
  k <> k' -> JsObject.getOwn (JsObject.set o k v) k' = JsObject.getOwn o k'.
Proof.
  intros Hne. induction o as [|[k0 v0] o IH]; simpl.
  - destruct (String.eqb_spec k k'); [contradiction|reflexivity].
  - destruct (String.eqb_spec k0 k) as [->|H0]; simpl.
    + destruct (String.eqb_spec k k'); [contradiction|reflexivity].
    + now rewrite IH.
Qed.

Lemma set_set o k v v' :
  JsObject.set (JsObject.set o k v) k v' = JsObject.set o k v'.
Proof.
  induction o as [|[k0 v0] o IH]; simpl.
  - now rewrite String.eqb_refl.
  - destruct (String.eqb_spec k0 k) as [->|H0]; simpl.
    + now rewrite String.eqb_refl.
    + destruct (String.eqb_spec k0 k); [contradiction|now rewrite IH].
Qed.

Lemma getOwn_None_keys o k :
  JsObject.getOwn o k = None <-> existsb (String.eqb k) (map fst o) = false.
Proof.
  induction o as [|[k0 v0] o IH]; simpl; [tauto|].
  rewrite (String.eqb_sym k k0).
  destruct (k0 =? k)%string; simpl; [split; discriminate | exact IH].
Qed.

Lemma keys_set o k v :
  map fst (JsObject.set o k v) =
  if existsb (String.eqb k) (map fst o) then map fst o
  else map fst o ++ [k].
Proof.
  induction o as [|[k0 v0] o IH]; simpl; [reflexivity|].
  rewrite (String.eqb_sym k k0).
  destruct (k0 =? k)%string; simpl; [reflexivity|].
  rewrite IH. now destruct (existsb _ _).
Qed.

Lemma In_getOwn o k v : JsObject.getOwn o k = Some v -> In (k, v) o.
Proof.
  induction o as [|[k0 v0] o IH]; simpl; [discriminate|].
  destruct (String.eqb_spec k0 k) as [->|Hne].
  - intros [= ->]. now left.
  - intros H. right. auto.
Qed.

Lemma In_entries o (kv : string * V) :
  In kv (JsObject.entries o) <-> In kv o.
Proof.
  unfold JsObject.entries, JsObject.indexed, JsObject.is_index.
  rewrite in_app_iff, in_map_iff, filter_In. split.
  - intros [([n kv'] & <- & Hin) | [Hin _]]; [|exact Hin].
    apply In_sort in Hin. apply in_flat_map in Hin.
    destruct Hin as (kv0 & Hin & Hkv).
    destruct (JsObject.array_index (fst kv0)); simpl in Hkv; [|contradiction].
    destruct Hkv as [[= _ <-]|[]]. exact Hin.
  - intros Hin. destruct (JsObject.array_index (fst kv)) as [n|] eqn:Hidx.
    + left. exists (n, kv). split; [reflexivity|].
      apply In_sort. apply in_flat_map. exists kv. split; [exact Hin|].
      rewrite Hidx. now left.
    + right. auto.
Qed.

Lemma keys_ownKeyOrder o : JsObject.keys o = ownKeyOrder (map fst o).
Proof.
  unfold JsObject.keys, JsObject.entries, ownKeyOrder.
  rewrite map_app. f_equal.
  - rewrite map_map.
    rewrite <- (map_map (fun a : N * (string * V) => (fst a, fst (snd a)))
                        snd).
    f_equal.
    rewrite (@map_sort _ _ _ (fun a b : N * string => (fst a <=? fst b)%N))
      by reflexivity.
    f_equal. unfold JsObject.indexed.
    induction o as [|[k v] o IH]; simpl; [reflexivity|].
    rewrite map_app, IH.
    destruct (JsObject.array_index k); reflexivity.
  - induction o as [|[k v] o IH]; simpl; [reflexivity|].
    destruct (JsObject.is_index k); simpl; now rewrite IH.
Qed.
End ObjectFacts.

(** ** The grouping reducer *)

Lemma groupStep_inr (acc acc' : Grouped) (p : Product.t) :
  groupStep acc p = inr acc' ->
  acc' = JsObject.set acc (groupName p)
           (match JsObject.getOwn acc (groupName p) with
            | Some items => items
            | None => []
            end ++ [p])
  /\ (JsObject.getOwn acc (groupName p) = None ->
      JsObject.inherited (groupName p) = false).
Proof.
  unfold groupStep. fold (groupName p). unfold JsObject.get.
  destruct (JsObject.getOwn acc (groupName p)) as [items|] eqn:Hown; simpl.
  - rewrite Hown. intros [= <-]. split; [reflexivity | discriminate].
  - destruct (JsObject.inherited (groupName p)) eqn:Hinh; simpl.
    + rewrite Hown. discriminate.
    + rewrite getOwn_set_same, set_set. intros [= <-]. auto.
Qed.

Lemma groupStep_completes (acc : Grouped) (p : Product.t) :
  JsObject.inherited (groupName p) = false ->
  exists acc', groupStep acc p = inr acc'.
Proof.
  intros Hinh. unfold groupStep. fold (groupName p). unfold JsObject.get.
  destruct (JsObject.getOwn acc (groupName p)) as [items|] eqn:Hown; simpl.
  - rewrite Hown. eauto.
  - rewrite Hinh. simpl. rewrite getOwn_set_same. eauto.
Qed.

(** The reducer throws only on a group name inherited from
    [Object.prototype]. *)
Lemma productsGroupedByCategory_completes (l : list Product.t) :
  (forall p, In p l -> JsObject.inherited (groupName p) = false) ->
  exists grouped, productsGroupedByCategory l = inr grouped.
Proof.
  unfold productsGroupedByCategory. generalize (@JsObject.empty (list Product.t)).
  induction l as [|p l IH]; intros acc Hl; simpl; [eauto|].
  destruct (groupStep_completes acc p) as [acc' ->];
    [apply Hl; now left|].
  apply IH. intros q Hq. apply Hl. now right.
Qed.

Lemma groupStep_holds_new (acc acc' : Grouped) (p : Product.t) :
  groupStep acc p = inr acc' -> holds acc' (groupName p) p.
Proof.
  intros H. apply groupStep_inr in H as [-> _].
  eexists. split; [apply getOwn_set_same|].
  apply in_or_app. right. now left.
Qed.

Lemma groupStep_holds_old (acc acc' : Grouped) (q p : Product.t) (k : string) :
  groupStep acc q = inr acc' -> holds acc k p -> holds acc' k p.
Proof.
  intros H (items & Hown & Hin). apply groupStep_inr in H as [-> _].
  destruct (string_dec (groupName q) k) as [<-|Hne].
  - rewrite Hown. eexists. split; [apply getOwn_set_same|].
    apply in_or_app. now left.
  - exists items. split; [|exact Hin]. now rewrite getOwn_set_other.
Qed.

Lemma reduce_holds_old (l : list Product.t) :
  forall (acc g : Grouped) (k : string) (p : Product.t),
    Js.reduce groupStep l acc = inr g -> holds acc k p -> holds g k p.
Proof.
  induction l as [|q l IH]; simpl; intros acc g k p H Hp.
  - now injection H as <-.
  - destruct (groupStep acc q) as [e|acc'] eqn:Hq; [discriminate|].
    eapply IH; [exact H|]. eapply groupStep_holds_old; eauto.
Qed.

Lemma reduce_holds (l : list Product.t) :
  forall (acc g : Grouped) (p : Product.t),
    Js.reduce groupStep l acc = inr g -> In p l -> holds g (groupName p) p.
Proof.
  induction l as [|q l IH]; simpl; intros acc g p H Hin; [contradiction|].
  destruct (groupStep acc q) as [e|acc'] eqn:Hq; [discriminate|].
  destruct Hin as [->|Hin].
  - eapply reduce_holds_old; [exact H|]. eapply groupStep_holds_new; eauto.
  - eapply IH; eauto.
Qed.

Lemma In_members_set (o : Grouped) (k : string) (v : list Product.t)
  (p : Product.t) :
  In p (members (JsObject.set o k v)) -> In p (members o) \/ In p v.
Proof.
  unfold members. induction o as [|[k0 v0] o IH]; simpl.
  - rewrite app_nil_r. auto.
  - destruct (k0 =? k)%string; simpl; rewrite !in_app_iff; [tauto|].
    intros [H|H]; [tauto|]. destruct (IH H); tauto.
Qed.

Lemma In_members_getOwn (o : Grouped) (k : string) (v : list Product.t)
  (p : Product.t) :
  JsObject.getOwn o k = Some v -> In p v -> In p (members o).
Proof.
  intros Hown Hin. unfold members. apply in_flat_map.
  exists (k, v). split; [now apply In_getOwn | exact Hin].
Qed.

Lemma reduce_members (l : list Product.t) :
  forall (acc g : Grouped) (p : Product.t),
    Js.reduce groupStep l acc = inr g ->
    In p (members g) -> In p (members acc) \/ In p l.
Proof.
  induction l as [|q l IH]; simpl; intros acc g p H Hin.
  - injection H as <-. now left.
  - destruct (groupStep acc q) as [e|acc'] eqn:Hq; [discriminate|].
    destruct (IH _ _ _ H Hin) as [Hacc'|Hl]; [|tauto].
    apply groupStep_inr in Hq as [-> _].
    apply In_members_set in Hacc' as [Hold|Hnew]; [tauto|].
    apply in_app_or in Hnew as [Hitems|[->|[]]]; [|tauto].
    left. destruct (JsObject.getOwn acc (groupName q)) as [items|] eqn:Hown;
      [|contradiction].
    eapply In_members_getOwn; eauto.
Qed.

Lemma reduce_keys (l : list Product.t) :
  forall acc g : Grouped,
    Js.reduce groupStep l acc = inr g ->
    map fst g = createKeys (map fst acc) (map groupName l).
Proof.
  induction l as [|q l IH]; simpl; intros acc g H.
  - now injection H as <-.
  - destruct (groupStep acc q) as [e|acc'] eqn:Hq; [discriminate|].
    rewrite (IH _ _ H). f_equal.
    apply groupStep_inr in Hq as [-> _]. apply keys_set.
Qed.

Lemma filter_notin_app (ks : list string) (x : string) (l : list string) :
  filter (fun k => negb (existsb (String.eqb k) (ks ++ [x]))) l
  = filter (fun k => negb (existsb (String.eqb k) ks))
      (filter (fun y => negb (y =? x)%string) l).
Proof.
  induction l as [|y l IH]; simpl; [reflexivity|].
  rewrite existsb_app. simpl. rewrite orb_false_r, negb_orb.
  destruct (y =? x)%string; simpl.
  - now rewrite andb_false_r.
  - rewrite andb_true_r.
    destruct (existsb (String.eqb y) ks); simpl; now rewrite IH.
Qed.

Lemma filter_notin_drop (ks : list string) (x : string) (l : list string) :
  existsb (String.eqb x) ks = true ->
  filter (fun k => negb (existsb (String.eqb k) ks))
    (filter (fun y => negb (y =? x)%string) l)
  = filter (fun k => negb (existsb (String.eqb k) ks)) l.
Proof.
  intros Hx. induction l as [|y l IH]; simpl; [reflexivity|].
  destruct (String.eqb_spec y x) as [->|Hne]; simpl.
  - now rewrite Hx.
  - now rewrite IH.
Qed.

Lemma createKeys_Set_of (l : list string) :
  forall ks : list string,
    createKeys ks l
    = ks ++ filter (fun k => negb (existsb (String.eqb k) ks)) (Js.Set_of l).
Proof.
  induction l as [|x l IH]; intros ks; simpl; [now rewrite app_nil_r|].
  rewrite IH. destruct (existsb (String.eqb x) ks) eqn:Hx; simpl.
  - now rewrite filter_notin_drop.
  - rewrite <- app_assoc. simpl. now rewrite filter_notin_app.
Qed.

Lemma createKeys_nil (l : list string) : createKeys [] l = Js.Set_of l.
Proof.
  rewrite createKeys_Set_of. simpl.
  induction (Js.Set_of l) as [|x l' IH]; simpl; [reflexivity|].
  now rewrite IH.
Qed.

Lemma ownKeyOrder_no_index (ks : list string) :
  (forall k, In k ks -> JsObject.is_index k = false) -> ownKeyOrder ks = ks.
Proof.
  unfold ownKeyOrder, JsObject.is_index. intros H.
  assert (Hnone : forall k, In k ks -> JsObject.array_index k = None).
  { intros k Hk. specialize (H k Hk).
    destruct (JsObject.array_index k); [discriminate|reflexivity]. }
  clear H.
  replace (flat_map _ ks) with (@nil (N * string)).
  - simpl. induction ks as [|k ks IH]; [reflexivity|]. simpl.
    rewrite (Hnone k) by now left. simpl. f_equal.
    apply IH. intros k' Hk'. apply Hnone. now right.
  - induction ks as [|k ks IH]; [reflexivity|]. simpl.
    rewrite (Hnone k) by now left. simpl.
    apply IH. intros k' Hk'. apply Hnone. now right.
Qed.

Lemma filteredProducts_All (products : list Product.t) :
  filteredProducts products "All" = products.
Proof.
  unfold filteredProducts. induction products as [|p l IH];
    [reflexivity|].
  cbn [filter]. rewrite String.eqb_refl. cbn [orb]. f_equal. exact IH.
Qed.

Lemma listening_no_error (s : State) : listening s = true -> error s = None.
Proof.
  unfold listening. intros H. apply andb_true_iff in H as [_ H].
  apply negb_true_iff in H. now apply error_truthy_false.
Qed.

(** ** The view model *)

(** C1, as stated, fails: the category list is derived from the whole
    snapshot list, so the unavailable Cake still contributes "Desserts". *)
Lemma menu_categories_counterexample :
  productList Sample.menuDocs = inr [Sample.Soup; Sample.Cake]
  /\ uniqueCategories [Sample.Soup; Sample.Cake]
     = ["All"; "Desserts"; "Starters"]
  /\ ~ (availableProducts [Sample.Soup; Sample.Cake] = [Sample.Soup]
        /\ uniqueCategories [Sample.Soup; Sample.Cake] = ["All"; "Starters"]
        /\ productsGroupedByCategory
             (filteredProducts
                (availableProducts [Sample.Soup; Sample.Cake]) "All")
           = inr [("Starters", [Sample.Soup])]).
Proof.
  split; [reflexivity|]. split; [reflexivity|].
  intros (_ & H & _). discriminate H.
Qed.

(** C1, amended. For the snapshot [Soup (Starters, available); Cake
    (Desserts, unavailable)] and [activeCategory = "All"], the available
    products are [Soup], the category list is ["All"; "Desserts";
    "Starters"] (derived from every product of the snapshot) and the grouped
    map is {"Starters": [Soup]}. *)
Theorem menu_scenario :
  let s := step Sample.subscribed (SnapshotDelivered Sample.menuDocs) in
  productList Sample.menuDocs = inr [Sample.Soup; Sample.Cake]
  /\ products s = [Sample.Soup]
  /\ categories s = ["All"; "Desserts"; "Starters"]
  /\ activeCategory s = "All"
  /\ productsGroupedByCategory
       (filteredProducts (products s) (activeCategory s))
     = inr [("Starters", [Sample.Soup])]
  /\ App true s
     = inr {| filterStrip := ["All"; "Desserts"; "Starters"];
              main := ViewPopulated [("Starters", [Sample.Soup])] |}.
Proof. repeat split. Qed.

(** C2. The category list always contains "All" and is sorted by code
    units; but "All" is sorted along with the product categories and is not
    removed from them, so on the snapshot [Extra cheese (Add-ons); Platter
    (All)] the list is ["Add-ons"; "All"; "All"]: "All" is neither first
    nor unique. *)
Theorem uniqueCategories_All_sorted_in :
  (forall raw : list Product.t,
      In "All" (uniqueCategories raw)
      /\ Sorted (fun a b => String.leb a b = true) (uniqueCategories raw))
  /\ uniqueCategories [Sample.Cheese; Sample.Platter]
     = ["Add-ons"; "All"; "All"].
Proof.
  split; [|reflexivity].
  intros raw. split.
  - apply In_uniqueCategories. now left.
  - apply Sorted_sort_strings.
Qed.

(** C5. Whatever the snapshot list and the active category, every product
    of every group of the grouped map is available. *)
Theorem grouped_products_available :
  forall (raw : list Product.t) (activeCategory : string) (grouped : Grouped)
         (category : string) (items : list Product.t) (p : Product.t),
    productsGroupedByCategory
      (filteredProducts (availableProducts raw) activeCategory)
    = inr grouped ->
    In (category, items) (JsObject.entries grouped) ->
    In p items ->
    Product.available p = true.
Proof.
  intros raw activeCategory grouped category items p Hg Hsec Hp.
  rewrite In_entries in Hsec.
  assert (Hmem : In p (members grouped)).
  { unfold members. apply in_flat_map. exists (category, items). split; [exact Hsec | exact Hp]. }
  destruct (reduce_members _ _ p Hg Hmem) as [[]|Hin].
  unfold filteredProducts, availableProducts in Hin.
  apply filter_In in Hin as [Hin _]. now apply filter_In in Hin as [_ Hin].
Qed.

Lemma grouped_products_available_witness :
  productsGroupedByCategory
    (filteredProducts (availableProducts [Sample.Soup; Sample.Cake]) "All")
  = inr [("Starters", [Sample.Soup])]
  /\ Product.available Sample.Soup = true.
Proof.
  split; [reflexivity|].
  apply (@grouped_products_available [Sample.Soup; Sample.Cake] "All"
           [("Starters", [Sample.Soup])] "Starters" [Sample.Soup]
           Sample.Soup).
  - reflexivity.
  - simpl. left. reflexivity.
  - simpl. left. reflexivity.
Defined.

(** C8. The view model depends on the snapshot list and the active category
    only: from any two component states with an attached listener and the
    same active category, delivering the same snapshot yields the same
    products, the same category list, the same grouped map and the same
    page; delivering it a second time changes nothing. *)
Theorem view_model_deterministic :
  forall (isFallback : bool) (s1 s2 : State)
         (docs : list QueryDocumentSnapshot) (raw : list Product.t),
    listening s1 = true ->
    listening s2 = true ->
    activeCategory s1 = activeCategory s2 ->
    productList docs = inr raw ->
    let t1 := step s1 (SnapshotDelivered docs) in
    let t2 := step s2 (SnapshotDelivered docs) in
    products t1 = availableProducts raw
    /\ categories t1 = uniqueCategories raw
    /\ products t1 = products t2
    /\ categories t1 = categories t2
    /\ productsGroupedByCategory
         (filteredProducts (products t1) (activeCategory t1))
       = productsGroupedByCategory
           (filteredProducts (products t2) (activeCategory t2))
    /\ App isFallback t1 = App isFallback t2
    /\ step t1 (SnapshotDelivered docs) = t1.
Proof.
  intros isFallback s1 s2 docs raw H1 H2 Hc Hraw t1 t2.
  pose proof (listening_no_error s1 H1) as He1.
  pose proof (listening_no_error s2 H2) as He2.
  assert (Ht1 : t1 = setCategories (uniqueCategories raw)
                       (setLoading false
                          (setProducts (availableProducts raw) s1))).
  { subst t1. simpl. rewrite H1. unfold onSnapshotNext. now rewrite Hraw. }
  assert (Ht2 : t2 = setCategories (uniqueCategories raw)
                       (setLoading false
                          (setProducts (availableProducts raw) s2))).
  { subst t2. simpl. rewrite H2. unfold onSnapshotNext. now rewrite Hraw. }
  assert (Hon : listening t1 = true).
  { rewrite Ht1. exact H1. }
  repeat split.
  - now rewrite Ht1.
  - now rewrite Ht1.
  - now rewrite Ht1, Ht2.
  - now rewrite Ht1, Ht2.
  - rewrite Ht1, Ht2. simpl. now rewrite Hc.
  - rewrite Ht1, Ht2. unfold App, categoryButtons. simpl.
    now rewrite Hc, He1, He2.
  - simpl. rewrite Hon. unfold onSnapshotNext. rewrite Hraw.
    rewrite Ht1. reflexivity.
Qed.

Lemma view_model_deterministic_witness :
  let s1 := Sample.subscribed in
  let s2 := step Sample.subscribed (SnapshotDelivered Sample.threeDocs) in
  let t1 := step s1 (SnapshotDelivered Sample.menuDocs) in
  let t2 := step s2 (SnapshotDelivered Sample.menuDocs) in
  products s1 <> products s2
  /\ products t1 = availableProducts [Sample.Soup; Sample.Cake]
  /\ categories t1 = uniqueCategories [Sample.Soup; Sample.Cake]
  /\ products t1 = products t2
  /\ categories t1 = categories t2
  /\ productsGroupedByCategory
       (filteredProducts (products t1) (activeCategory t1))
     = productsGroupedByCategory
         (filteredProducts (products t2) (activeCategory t2))
  /\ App true t1 = App true t2
  /\ step t1 (SnapshotDelivered Sample.menuDocs) = t1.
Proof.
  split; [discriminate|].
  apply (view_model_deterministic true Sample.subscribed
           (step Sample.subscribed (SnapshotDelivered Sample.threeDocs))
           Sample.menuDocs (raw := [Sample.Soup; Sample.Cake]));
    reflexivity.
Defined.

(** ** Order of the rendered sections *)

(** C9, as stated, fails: a category that reads as an array index is
    enumerated before the others.  For [Soup (Starters); Port (2024)] the
    first occurrences are "Starters" then "2024", the sections come out as
    "2024" then "Starters". *)
Lemma section_order_counterexample :
  let shown :=
    filteredProducts (availableProducts [Sample.Soup; Sample.Port]) "All" in
  firstOccurrence shown = ["Starters"; "2024"]
  /\ productsGroupedByCategory shown
     = inr [("Starters", [Sample.Soup]); ("2024", [Sample.Port])]
  /\ JsObject.entries [("Starters", [Sample.Soup]); ("2024", [Sample.Port])]
     = [("2024", [Sample.Port]); ("Starters", [Sample.Soup])].
Proof. repeat split. Qed.

(** C9, amended. The sections of the grouped map come in the enumeration
    order of its keys: group names that are array indices (canonical decimal
    numerals below 2^32 - 1) first, in ascending numeric order, then every
    other group name in order of its first occurrence in the filtered list
    of available products.  When no group name is an array index the
    sections follow first-occurrence order, whatever the lexicographic
    order of the names. *)
Theorem section_order :
  forall (raw : list Product.t) (activeCategory : string) (grouped : Grouped),
    let shown := filteredProducts (availableProducts raw) activeCategory in
    productsGroupedByCategory shown = inr grouped ->
    map fst (JsObject.entries grouped) = ownKeyOrder (firstOccurrence shown)
    /\ ((forall k, In k (firstOccurrence shown) ->
                   JsObject.is_index k = false) ->
        map fst (JsObject.entries grouped) = firstOccurrence shown).
Proof.
  intros raw activeCategory grouped shown Hg.
  assert (Hkeys : map fst (JsObject.entries grouped)
                  = ownKeyOrder (firstOccurrence shown)).
  { change (JsObject.keys grouped = ownKeyOrder (firstOccurrence shown)).
    rewrite keys_ownKeyOrder. f_equal.
    unfold productsGroupedByCategory in Hg.
    rewrite (reduce_keys _ _ Hg). apply createKeys_nil. }
  split; [exact Hkeys|].
  intros Hplain. rewrite Hkeys. now apply ownKeyOrder_no_index.
Qed.

Lemma section_order_witness :
  let raw := [ Sample.item "1" "Stew" (Some "Mains") (12 # 1) true;
               Sample.Cake;
               Sample.item "3" "Broth" (Some "Appetizers") (5 # 1) true;
               Sample.item "4" "Roast" (Some "Mains") (15 # 1) true ] in
  let shown := filteredProducts (availableProducts raw) "All" in
  firstOccurrence shown = ["Mains"; "Appetizers"]
  /\ map fst (JsObject.entries
                [ ("Mains", [ Sample.item "1" "Stew" (Some "Mains") (12 # 1) true;
                              Sample.item "4" "Roast" (Some "Mains") (15 # 1) true ]);
                  ("Appetizers",
                   [ Sample.item "3" "Broth" (Some "Appetizers") (5 # 1) true ]) ])
     = ownKeyOrder (firstOccurrence shown)
  /\ ((forall k, In k (firstOccurrence shown) ->
                 JsObject.is_index k = false) ->
      map fst (JsObject.entries
                 [ ("Mains", [ Sample.item "1" "Stew" (Some "Mains") (12 # 1) true;
                               Sample.item "4" "Roast" (Some "Mains") (15 # 1) true ]);
                   ("Appetizers",
                    [ Sample.item "3" "Broth" (Some "Appetizers") (5 # 1) true ]) ])
      = firstOccurrence shown).
Proof.
  split; [reflexivity|].
  apply (@section_order
           [ Sample.item "1" "Stew" (Some "Mains") (12 # 1) true;
             Sample.Cake;
             Sample.item "3" "Broth" (Some "Appetizers") (5 # 1) true;
             Sample.item "4" "Roast" (Some "Mains") (15 # 1) true ]
           "All").
  reflexivity.
Defined.

(** ** Products without a category *)

(** C10, as stated, fails: "Uncategorized" does appear in the category
    filter list when a product carries that very name as its category. *)
Lemma uncategorized_listed_counterexample :
  Product.category Sample.Bread = Some ""
  /\ Product.available Sample.Bread = true
  /\ uniqueCategories [Sample.Bread; Sample.Olives]
     = ["All"; "Uncategorized"]
  /\ In "Uncategorized" (uniqueCategories [Sample.Bread; Sample.Olives]).
Proof. repeat split. simpl. right. left. reflexivity. Qed.

(** C10, amended. An available product whose category is the empty string
    is, with [activeCategory = "All"], held by the group "Uncategorized" of
    the grouped map whenever the grouping completes (it does when no group
    name is a member of [Object.prototype]), and that map is what the
    Populated view shows.  The empty category contributes nothing to
    the category filter list: "Uncategorized" is listed only if some product
    of the snapshot has the literal category "Uncategorized", and "" is never
    listed.  Selecting any listed category other than "All" hides the
    product. *)
Theorem uncategorized_only_through_All :
  forall (isFallback : bool) (raw : list Product.t) (p : Product.t),
    In p raw ->
    Product.available p = true ->
    Product.category p = Some "" ->
    (forall grouped : Grouped,
        productsGroupedByCategory
          (filteredProducts (availableProducts raw) "All") = inr grouped ->
        (exists items, In ("Uncategorized", items) (JsObject.entries grouped)
                       /\ In p items)
        /\ renderProductList isFallback false None (availableProducts raw)
             grouped = ViewPopulated (JsObject.entries grouped))
    /\ ((forall q, In q (availableProducts raw) ->
                   JsObject.inherited (groupName q) = false) ->
        exists grouped : Grouped,
          productsGroupedByCategory
            (filteredProducts (availableProducts raw) "All") = inr grouped)
    /\ (In "Uncategorized" (uniqueCategories raw) <->
        exists q, In q raw /\ Product.category q = Some "Uncategorized")
    /\ ~ In "" (uniqueCategories raw)
    /\ (forall c : string,
          In c (uniqueCategories raw) -> c <> "All" ->
          ~ In p (filteredProducts (availableProducts raw) c)).
Proof.
  intros isFallback raw p Hin Hav Hcat.
  assert (Hshown : In p (availableProducts raw)).
  { unfold availableProducts. apply filter_In. auto. }
  split; [|split; [|split; [|split]]].
  - intros grouped Hg. split.
    + rewrite filteredProducts_All in Hg.
      pose proof (reduce_holds _ _ p Hg Hshown) as (items & Hown & Hp).
      unfold groupName in Hown. rewrite Hcat in Hown. simpl in Hown.
      exists items. split; [|exact Hp].
      apply In_entries. now apply In_getOwn.
    + unfold renderProductList. simpl.
      destruct (availableProducts raw); [contradiction|reflexivity].
  - intros Hplain. rewrite filteredProducts_All.
    now apply productsGroupedByCategory_completes.
  - rewrite In_uniqueCategories. split.
    + intros [H|[_ H]]; [discriminate | exact H].
    + intros H. right. split; [discriminate | exact H].
  - rewrite In_uniqueCategories. intros [H|[H _]];
      [discriminate | now apply H].
  - intros c Hc Hall Hp. apply In_uniqueCategories in Hc as [Hc|[Hne _]];
      [contradiction|].
    unfold filteredProducts in Hp. apply filter_In in Hp as [_ Hp].
    rewrite Hcat in Hp. unfold Js.strict_eq in Hp.
    apply orb_true_iff in Hp as [Hp|Hp]; apply String.eqb_eq in Hp;
      congruence.
Qed.

Lemma uncategorized_only_through_All_witness :
  let raw := [Sample.Bread; Sample.Olives] in
  (forall grouped : Grouped,
      productsGroupedByCategory
        (filteredProducts (availableProducts raw) "All") = inr grouped ->
      (exists items, In ("Uncategorized", items) (JsObject.entries grouped)
                     /\ In Sample.Bread items)
      /\ renderProductList true false None (availableProducts raw)
           grouped = ViewPopulated (JsObject.entries grouped))
  /\ ((forall q, In q (availableProducts raw) ->
                 JsObject.inherited (groupName q) = false) ->
      exists grouped : Grouped,
        productsGroupedByCategory
          (filteredProducts (availableProducts raw) "All") = inr grouped)
  /\ (In "Uncategorized" (uniqueCategories raw) <->
      exists q, In q raw /\ Product.category q = Some "Uncategorized")
  /\ ~ In "" (uniqueCategories raw)
  /\ (forall c : string,
        In c (uniqueCategories raw) -> c <> "All" ->
        ~ In Sample.Bread (filteredProducts (availableProducts raw) c)).
Proof.
  apply (@uncategorized_only_through_All true
           [Sample.Bread; Sample.Olives] Sample.Bread).
  - simpl. left. reflexivity.
  - reflexivity.
  - reflexivity.
Defined.

(** ** The sticky error state, on the page *)




(** * Further properties of the component *)

(** ** Sorting, sets and own keys *)

Lemma Permutation_insert (A : Type) (leb : A -> A -> bool) (x : A) (l : list A) :
  Permutation (Js.insert leb x l) (x :: l).
Proof.
  induction l as [|y l IH]; simpl; [reflexivity|].
  destruct (leb x y); [reflexivity|].
  rewrite IH. apply perm_swap.
Qed.

Lemma Permutation_sort (A : Type) (leb : A -> A -> bool) (l : list A) :
  Permutation (Js.sort leb l) l.
Proof.
  unfold Js.sort. induction l as [|x l IH]; simpl; [reflexivity|].
  rewrite Permutation_insert. now constructor.
Qed.

Lemma NoDup_Set_of (l : list string) : NoDup (Js.Set_of l).
Proof.
  induction l as [|x l IH]; simpl; constructor.
  - rewrite filter_In, String.eqb_refl. intros [_ H]. discriminate.
  - now apply NoDup_filter.
Qed.

Lemma In_getOwn_keys (V : Type) (o : JsObject.t V) (k : string) (v : V) :
  JsObject.getOwn o k = Some v -> In k (map fst o).
Proof.
  intros H. apply In_getOwn in H. apply in_map_iff. now exists (k, v).
Qed.

Lemma NoDup_getOwn (V : Type) (o : JsObject.t V) (k : string) (v : V) :
  NoDup (map fst o) -> In (k, v) o -> JsObject.getOwn o k = Some v.
Proof.
  induction o as [|[k0 v0] o IH]; simpl; [contradiction|].
  intros Hnd [[= -> ->]|Hin].
  - now rewrite String.eqb_refl.
  - inversion Hnd as [|? ? Hk0 Hnd']; subst.
    destruct (String.eqb_spec k0 k) as [->|Hne]; [|auto].
    exfalso. apply Hk0. apply in_map_iff. now exists (k, v).
Qed.

Lemma indexed_keys (ks : list string) :
  map snd (flat_map (fun k => match JsObject.array_index k with
                              | Some n => [(n, k)]
                              | None => []
                              end) ks)
  = filter JsObject.is_index ks.
Proof.
  unfold JsObject.is_index.
  induction ks as [|k ks IH]; simpl; [reflexivity|].
  rewrite map_app, IH. now destruct (JsObject.array_index k).
Qed.

Lemma Permutation_ownKeyOrder (ks : list string) :
  Permutation (ownKeyOrder ks)
    (filter JsObject.is_index ks
       ++ filter (fun k => negb (JsObject.is_index k)) ks).
Proof.
  unfold ownKeyOrder. apply Permutation_app_tail.
  rewrite <- indexed_keys. apply Permutation_map. apply Permutation_sort.
Qed.

Lemma NoDup_ownKeyOrder (ks : list string) :
  NoDup ks -> NoDup (ownKeyOrder ks).
Proof.
  intros Hnd. eapply Permutation_NoDup.
  - symmetry. apply Permutation_ownKeyOrder.
  - apply NoDup_app; try now apply NoDup_filter.
    intros k H1 H2. apply filter_In in H1 as [_ H1].
    apply filter_In in H2 as [_ H2]. rewrite H1 in H2. discriminate.
Qed.

(** ** What the grouped map holds *)

Lemma grouped_keys (l : list Product.t) (grouped : Grouped) :
  productsGroupedByCategory l = inr grouped ->
  map fst grouped = firstOccurrence l.
Proof.
  intros H. unfold productsGroupedByCategory in H.
  rewrite (reduce_keys _ _ H). apply createKeys_nil.
Qed.

Lemma reduce_getOwn (l : list Product.t) :
  forall (acc g : Grouped) (k : string),
    Js.reduce groupStep l acc = inr g ->
    JsObject.getOwn g k =
      match JsObject.getOwn acc k, filter (inGroup k) l with
      | Some items, fl => Some (items ++ fl)
      | None, [] => None
      | None, fl => Some fl
      end.
Proof.
  induction l as [|q l IH]; simpl; intros acc g k H.
  - injection H as <-. destruct (JsObject.getOwn acc k); [|reflexivity].
    now rewrite app_nil_r.
  - destruct (groupStep acc q) as [e|acc'] eqn:Hq; [discriminate|].
    rewrite (IH _ _ k H). apply groupStep_inr in Hq as [-> _].
    destruct (inGroup k q) eqn:Hk; unfold inGroup in Hk.
    + apply String.eqb_eq in Hk as <-. rewrite getOwn_set_same.
      destruct (JsObject.getOwn acc (groupName q)); simpl;
        [now rewrite <- app_assoc | reflexivity].
    + apply String.eqb_neq in Hk. now rewrite getOwn_set_other.
Qed.

Lemma section_content (l : list Product.t) (grouped : Grouped)
  (k : string) (items : list Product.t) :
  productsGroupedByCategory l = inr grouped ->
  In (k, items) (JsObject.entries grouped) ->
  items <> [] /\ items = filter (inGroup k) l.
Proof.
  intros Hg Hin. rewrite In_entries in Hin.
  assert (Hown : JsObject.getOwn grouped k = Some items).
  { apply NoDup_getOwn; [|exact Hin].
    rewrite (grouped_keys _ Hg). apply NoDup_Set_of. }
  unfold productsGroupedByCategory in Hg.
  rewrite (reduce_getOwn _ _ k Hg) in Hown. simpl in Hown.
  destruct (filter (inGroup k) l) as [|p fl]; [discriminate|].
  injection Hown as <-. split; [discriminate|reflexivity].
Qed.

(** X1. Each section of the grouped map is non-empty and holds exactly the
    shown products of its group, in snapshot order. *)
Theorem sections_hold_their_group_in_order :
  forall (products : list Product.t) (activeCategory : string)
         (grouped : Grouped) (k : string) (items : list Product.t),
    let shown := filteredProducts products activeCategory in
    productsGroupedByCategory shown = inr grouped ->
    In (k, items) (JsObject.entries grouped) ->
    items <> [] /\ items = filter (inGroup k) shown.
Proof.
  intros products activeCategory grouped k items shown Hg Hin.
  exact (section_content _ _ _ Hg Hin).
Qed.

Lemma sections_hold_their_group_in_order_witness :
  let products :=
    [ Sample.item "1" "Stew" (Some "Mains") (12 # 1) true;
      Sample.Soup;
      Sample.item "4" "Roast" (Some "Mains") (15 # 1) true ] in
  let items :=
    [ Sample.item "1" "Stew" (Some "Mains") (12 # 1) true;
      Sample.item "4" "Roast" (Some "Mains") (15 # 1) true ] in
  items <> []
  /\ items = filter (inGroup "Mains") (filteredProducts products "All").
Proof.
  apply (@sections_hold_their_group_in_order
           [ Sample.item "1" "Stew" (Some "Mains") (12 # 1) true;
             Sample.Soup;
             Sample.item "4" "Roast" (Some "Mains") (15 # 1) true ]
           "All"
           [ ("Mains", [ Sample.item "1" "Stew" (Some "Mains") (12 # 1) true;
                         Sample.item "4" "Roast" (Some "Mains") (15 # 1) true ]);
             ("Starters", [Sample.Soup]) ]
           "Mains").
  - reflexivity.
  - simpl. left. reflexivity.
Defined.

(** X2. The sections partition the shown products: every shown product is
    in the section named after its group, and in no other section. *)
Theorem sections_partition_shown :
  forall (products : list Product.t) (activeCategory : string)
         (grouped : Grouped) (p : Product.t),
    let shown := filteredProducts products activeCategory in
    productsGroupedByCategory shown = inr grouped ->
    In p shown ->
    (exists items, In (groupName p, items) (JsObject.entries grouped)
                   /\ In p items)
    /\ (forall k items,
          In (k, items) (JsObject.entries grouped) -> In p items ->
          k = groupName p).
Proof.
  intros products activeCategory grouped p shown Hg Hp. split.
  - unfold productsGroupedByCategory in Hg.
    destruct (reduce_holds _ _ p Hg Hp) as (items & Hown & Hin).
    exists items. split; [|exact Hin].
    apply In_entries. now apply In_getOwn.
  - intros k items Hsec Hin.
    destruct (section_content _ _ _ Hg Hsec) as [_ ->].
    apply filter_In in Hin as [_ Hin]. unfold inGroup in Hin.
    symmetry. now apply String.eqb_eq.
Qed.

Lemma sections_partition_shown_witness :
  let products := [Sample.Bread; Sample.Soup; Sample.Olives] in
  let grouped : Grouped :=
    [ ("Uncategorized", [Sample.Bread; Sample.Olives]);
      ("Starters", [Sample.Soup]) ] in
  (exists items, In (groupName Sample.Olives, items) (JsObject.entries grouped)
                 /\ In Sample.Olives items)
  /\ (forall k items,
        In (k, items) (JsObject.entries grouped) -> In Sample.Olives items ->
        k = groupName Sample.Olives).
Proof.
  apply (@sections_partition_shown
           [Sample.Bread; Sample.Soup; Sample.Olives] "All"
           [ ("Uncategorized", [Sample.Bread; Sample.Olives]);
             ("Starters", [Sample.Soup]) ]
           Sample.Olives).
  - reflexivity.
  - simpl. right. right. left. reflexivity.
Defined.

(** X3. The section headings of a render are pairwise distinct, so the
    [key={category}] of the sections never collides. *)
Theorem section_headings_distinct :
  forall (products : list Product.t) (activeCategory : string)
         (grouped : Grouped),
    productsGroupedByCategory (filteredProducts products activeCategory)
    = inr grouped ->
    NoDup (map fst (JsObject.entries grouped)).
Proof.
  intros products activeCategory grouped Hg.
  change (NoDup (JsObject.keys grouped)). rewrite keys_ownKeyOrder.
  apply NoDup_ownKeyOrder. rewrite (grouped_keys _ Hg). apply NoDup_Set_of.
Qed.

Lemma section_headings_distinct_witness :
  NoDup (map fst (JsObject.entries
                    [ ("Starters", [Sample.Soup]);
                      ("2024", [Sample.Port]) ])).
Proof.
  apply (@section_headings_distinct [Sample.Soup; Sample.Port] "All"
           [ ("Starters", [Sample.Soup]); ("2024", [Sample.Port]) ]).
  reflexivity.
Defined.

(** ** When a render aborts *)

Lemma groupStep_inl (acc : Grouped) (p : Product.t) (e : Js.Error) :
  groupStep acc p = inl e -> e = pushTypeError.
Proof.
  unfold groupStep, pushTypeError. cbv zeta.
  match goal with
  | |- match ?r with _ => _ end = _ -> _ => destruct r
  end; intros H; [discriminate | now injection H | now injection H].
Qed.

Lemma reduce_inl (l : list Product.t) :
  forall (acc : Grouped) (e : Js.Error),
    Js.reduce groupStep l acc = inl e -> e = pushTypeError.
Proof.
  induction l as [|q l IH]; simpl; intros acc e H; [discriminate|].
  destruct (groupStep acc q) as [e'|acc'] eqn:Hq.
  - injection H as <-. eapply groupStep_inl; eauto.
  - eapply IH; eauto.
Qed.

Lemma reduce_plain_names (l : list Product.t) :
  forall acc g : Grouped,
    (forall k, In k (map fst acc) -> JsObject.inherited k = false) ->
    Js.reduce groupStep l acc = inr g ->
    forall p, In p l -> JsObject.inherited (groupName p) = false.
Proof.
  induction l as [|q l IH]; simpl; intros acc g Hacc H p Hp; [contradiction|].
  destruct (groupStep acc q) as [e|acc'] eqn:Hq; [discriminate|].
  apply groupStep_inr in Hq as [-> Hnew].
  assert (Hq : JsObject.inherited (groupName q) = false).
  { destruct (JsObject.getOwn acc (groupName q)) as [items|] eqn:Hown.
    - apply Hacc. eapply In_getOwn_keys; eauto.
    - now apply Hnew. }
  destruct Hp as [->|Hp]; [exact Hq|].
  eapply IH; [|exact H|exact Hp].
  intros k Hk. rewrite keys_set in Hk.
  destruct (existsb _ _); [now apply Hacc|].
  apply in_app_or in Hk as [Hk|[<-|[]]]; [now apply Hacc | exact Hq].
Qed.

(** X4. A render of [App] aborts exactly when a shown product's group name
    is a member of [Object.prototype] (such as "constructor" or "toString"),
    whatever [loading] and [error] are; the exception is always the
    reducer's [TypeError]. *)
Theorem App_aborts_iff_prototype_name :
  forall (isFallback : bool) (s : State),
    ((exists e, App isFallback s = inl e) <->
     (exists p, In p (filteredProducts (products s) (activeCategory s))
                /\ JsObject.inherited (groupName p) = true))
    /\ (forall e, App isFallback s = inl e -> e = pushTypeError).
Proof.
  intros isFallback s. unfold App.
  set (shown := filteredProducts (products s) (activeCategory s)).
  destruct (productsGroupedByCategory shown) as [e|grouped] eqn:Hg.
  - split; [|intros e' [= <-]; eapply reduce_inl; exact Hg].
    split; [intros _|intros _; now exists e].
    destruct (existsb (fun p => JsObject.inherited (groupName p)) shown)
      eqn:Hex.
    + apply existsb_exists in Hex as (p & Hp & Hinh). now exists p.
    + exfalso.
      destruct (productsGroupedByCategory_completes shown) as [g' Hg'];
        [|congruence].
      intros p Hp.
      destruct (JsObject.inherited (groupName p)) eqn:Hinh; [|reflexivity].
      assert (Hex' : existsb (fun p => JsObject.inherited (groupName p)) shown
                     = true) by (apply existsb_exists; now exists p).
      congruence.
  - split; [|discriminate]. split; [intros [e He]; discriminate|].
    intros (p & Hp & Hinh).
    assert (Hplain : JsObject.inherited (groupName p) = false).
    { eapply (@reduce_plain_names shown JsObject.empty grouped);
        [intros k []|exact Hg|exact Hp]. }
    congruence.
Qed.

(** ** A selected category *)

Lemma entries_singleton (V : Type) (k : string) (v : V) :
  JsObject.entries [(k, v)] = [(k, v)].
Proof.
  unfold JsObject.entries, JsObject.indexed, JsObject.is_index. simpl.
  destruct (JsObject.array_index k); reflexivity.
Qed.

Lemma reduce_one_group (c : string) (l : list Product.t) :
  forall items : list Product.t,
    (forall p, In p l -> groupName p = c) ->
    Js.reduce groupStep l [(c, items)] = inr [(c, items ++ l)].
Proof.
  induction l as [|q l IH]; intros items Hl; simpl.
  - now rewrite app_nil_r.
  - assert (Hq : groupStep [(c, items)] q = inr [(c, items ++ [q])]).
    { unfold groupStep. fold (groupName q).
      rewrite (Hl q (or_introl eq_refl)).
      unfold JsObject.get. simpl. rewrite String.eqb_refl. simpl.
      now rewrite String.eqb_refl. }
    rewrite Hq, IH by (intros p Hp; apply Hl; now right).
    now rewrite <- app_assoc.
Qed.

Lemma filteredProducts_category (products : list Product.t) (c : string)
  (p : Product.t) :
  c <> "All" ->
  In p (filteredProducts products c) -> Product.category p = Some c.
Proof.
  intros Hall Hp. unfold filteredProducts in Hp.
  apply filter_In in Hp as [_ Hp].
  apply orb_true_iff in Hp as [Hp|Hp].
  - apply String.eqb_eq in Hp. contradiction.
  - unfold Js.strict_eq in Hp. destruct (Product.category p) as [c'|];
      [|discriminate].
    apply String.eqb_eq in Hp. now subst.
Qed.

Lemma groupName_category (p : Product.t) (c : string) :
  c <> "" -> Product.category p = Some c -> groupName p = c.
Proof.
  intros Hne Hc. unfold groupName, Js.or_else, Js.truthy. rewrite Hc.
  destruct (String.eqb_spec c ""); [contradiction|reflexivity].
Qed.

(** X5. With a category [c] other than "All" selected (and non-empty, as
    every listed category is): when no available product has category [c]
    the grouped map is empty; otherwise the reducer throws its [TypeError]
    if [c] is a member of [Object.prototype], and else yields the single
    section [c], holding those products in snapshot order. *)
Theorem selected_category_one_section :
  forall (products : list Product.t) (c : string),
    c <> "All" -> c <> "" ->
    let shown := filteredProducts products c in
    productsGroupedByCategory shown
    = match shown with
      | [] => inr JsObject.empty
      | _ :: _ =>
          if JsObject.inherited c then inl pushTypeError
          else inr [(c, shown)]
      end
    /\ JsObject.entries [(c, shown)] = [(c, shown)].
Proof.
  intros products c Hall Hne shown. split; [|apply entries_singleton].
  assert (Hname : forall p, In p shown -> groupName p = c).
  { intros p Hp. apply groupName_category; [exact Hne|].
    eapply filteredProducts_category; eauto. }
  destruct shown as [|q rest]; [reflexivity|].
  unfold productsGroupedByCategory. simpl.
  assert (Hq : groupStep JsObject.empty q
               = if JsObject.inherited c then inl pushTypeError
                 else inr [(c, [q])]).
  { unfold groupStep. fold (groupName q).
    rewrite (Hname q (or_introl eq_refl)).
    unfold JsObject.get. simpl.
    destruct (JsObject.inherited c); simpl; [reflexivity|].
    now rewrite String.eqb_refl. }
  rewrite Hq. destruct (JsObject.inherited c); [reflexivity|].
  rewrite reduce_one_group by (intros p Hp; apply Hname; now right).
  reflexivity.
Qed.

Lemma selected_category_one_section_witness :
  let products :=
    [ Sample.item "1" "Stew" (Some "Mains") (12 # 1) true;
      Sample.Soup;
      Sample.item "4" "Roast" (Some "Mains") (15 # 1) true ] in
  let shown := filteredProducts products "Mains" in
  (shown = [ Sample.item "1" "Stew" (Some "Mains") (12 # 1) true;
             Sample.item "4" "Roast" (Some "Mains") (15 # 1) true ]
   /\ JsObject.inherited "Mains" = false)
  /\ productsGroupedByCategory shown
     = match shown with
       | [] => inr JsObject.empty
       | _ :: _ =>
           if JsObject.inherited "Mains" then inl pushTypeError
           else inr [("Mains", shown)]
       end
  /\ JsObject.entries [("Mains", shown)] = [("Mains", shown)].
Proof.
  split; [split; reflexivity|].
  apply (@selected_category_one_section
           [ Sample.item "1" "Stew" (Some "Mains") (12 # 1) true;
             Sample.Soup;
             Sample.item "4" "Roast" (Some "Mains") (15 # 1) true ]
           "Mains").
  - discriminate.
  - discriminate.
Defined.

(** X6. When products are available but none matches the selected category,
    the page is the Populated view with no section at all (a blank list),
    not the Menu Empty placeholder. *)
Theorem no_match_renders_blank_list :
  forall (isFallback : bool) (s : State),
    loading s = false ->
    error s = None ->
    products s <> [] ->
    filteredProducts (products s) (activeCategory s) = [] ->
    App isFallback s
    = inr {| filterStrip := categoryButtons s; main := ViewPopulated [] |}.
Proof.
  intros isFallback s Hl He Hp Hshown. unfold App. rewrite Hshown. simpl.
  unfold renderProductList. rewrite Hl, He. simpl.
  destruct (products s); [contradiction|reflexivity].
Qed.

Lemma no_match_renders_blank_list_witness :
  let s := run Sample.subscribed
             [SnapshotDelivered Sample.menuDocs; CategoryClicked "Desserts"] in
  activeCategory s = "Desserts"
  /\ products s = [Sample.Soup]
  /\ App true s
     = inr {| filterStrip := categoryButtons s; main := ViewPopulated [] |}.
Proof.
  split; [reflexivity|]. split; [reflexivity|].
  apply (@no_match_renders_blank_list true
           (run Sample.subscribed
              [SnapshotDelivered Sample.menuDocs; CategoryClicked "Desserts"])).
  - reflexivity.
  - reflexivity.
  - discriminate.
  - reflexivity.
Defined.

(** ** The component's life cycle *)

Lemma mounted_error (cfg : ConfigRef) (sdk : SdkInit) :
  usable cfg = false \/ (exists e, sdk = SdkThrows e) ->
  exists m, error (mounted cfg sdk) = Some m
            /\ loading (mounted cfg sdk) = true
            /\ products (mounted cfg sdk) = [].
Proof.
  unfold mounted, initEffect, usable. rewrite <- negb_andb.
  destruct (Json.truthy (deref cfg) && Json.has_projectId (deref cfg)); simpl.
  - intros [H|[e ->]]; [discriminate|]. eexists. repeat split.
  - intros _. eexists. repeat split.
Qed.

Lemma step_error_frozen (s : State) (ev : Event) (m : ErrorMessage) :
  error s = Some m ->
  error (step s ev) = Some m
  /\ loading (step s ev) = loading s
  /\ products (step s ev) = products s
  /\ categories (step s ev) = categories s.
Proof.
  intros He. pose proof (listening_error s He) as Hoff.
  destruct ev as [|docs|e|cat]; simpl.
  - destruct (db s); simpl; auto.
  - rewrite Hoff. auto.
  - rewrite Hoff. auto.
  - destruct (existsb _ _); simpl; auto.
Qed.

Lemma run_error_frozen (evs : list Event) :
  forall (s : State) (m : ErrorMessage),
    error s = Some m ->
    error (run s evs) = Some m
    /\ loading (run s evs) = loading s
    /\ products (run s evs) = products s
    /\ categories (run s evs) = categories s.
Proof.
  induction evs as [|ev evs IH]; intros s m He; simpl; [auto|].
  destruct (step_error_frozen s ev He) as (He' & Hl & Hp & Hc).
  destruct (IH (step s ev) m He') as (? & ? & ? & ?).
  repeat split; congruence.
Qed.

(** X7. When the configuration check of the first effect fails, or the
    Firebase initialisation throws, the error is recorded but [loading] is
    never cleared: the listener never attaches and, whatever happens next,
    the page keeps showing the Loading view, never the error. *)
Theorem init_failure_stays_on_Loading :
  forall (isFallback : bool) (cfg : ConfigRef) (sdk : SdkInit)
         (evs : list Event) (grouped : Grouped),
    usable cfg = false \/ (exists e, sdk = SdkThrows e) ->
    let s := run (mounted cfg sdk) evs in
    error s = error (mounted cfg sdk)
    /\ error s <> None
    /\ loading s = true
    /\ listening s = false
    /\ products s = []
    /\ renderProductList isFallback (loading s) (error s) (products s)
         grouped = ViewLoading.
Proof.
  intros isFallback cfg sdk evs grouped H s.
  destruct (@mounted_error cfg sdk H) as (m & He & Hl & Hp).
  destruct (@run_error_frozen evs _ _ He) as (He' & Hl' & Hp' & _).
  fold s in He', Hl', Hp'.
  assert (Hload : loading s = true) by congruence.
  repeat split; try congruence.
  - now apply listening_error with m.
  - unfold renderProductList. now rewrite Hload.
Qed.

Lemma init_failure_stays_on_Loading_witness :
  let s := run (mounted (Parsed (Json.Object [])) SdkReady)
             [AuthStateChanged; SnapshotDelivered Sample.menuDocs] in
  error s = Some InitializationFailed
  /\ error s <> None
  /\ loading s = true
  /\ listening s = false
  /\ products s = []
  /\ renderProductList false (loading s) (error s) (products s)
       JsObject.empty = ViewLoading.
Proof.
  apply (@init_failure_stays_on_Loading false (Parsed (Json.Object []))
           SdkReady [AuthStateChanged; SnapshotDelivered Sample.menuDocs]
           JsObject.empty).
  left. reflexivity.
Defined.

Lemma Forall_availableProducts (raw : list Product.t) :
  Forall (fun p => Product.available p = true) (availableProducts raw).
Proof.
  apply Forall_forall. intros p Hp. unfold availableProducts in Hp.
  now apply filter_In in Hp.
Qed.

Lemma categoriesShape_uniqueCategories (raw : list Product.t) :
  categoriesShape (uniqueCategories raw).
Proof.
  right. split.
  - apply In_uniqueCategories. now left.
  - apply Sorted_sort_strings.
Qed.

Lemma listening_ready (s : State) :
  listening s = true -> isAuthReady s = true /\ db s = true.
Proof.
  unfold listening. intros H.
  apply andb_true_iff in H as [H _]. now apply andb_true_iff in H.
Qed.

Lemma Invariant_mounted (cfg : ConfigRef) (sdk : SdkInit) :
  Invariant (mounted cfg sdk).
Proof.
  unfold mounted, initEffect, Invariant, categoriesShape.
  destruct (_ || _); [|destruct sdk]; simpl;
    (split; [constructor|]; split; [now left|]; split;
     [discriminate | intros _; now split]).
Qed.

Lemma Invariant_step (s : State) (ev : Event) :
  Invariant s -> Invariant (step s ev).
Proof.
  intros Hs. pose proof Hs as (Hav & Hcat & Hdone & Hwait).
  unfold Invariant.
  destruct ev as [|docs|e|cat]; simpl.
  - destruct (db s) eqn:Hdb; simpl; [|exact Hs].
    split; [exact Hav|]. split; [exact Hcat|]. split; [|exact Hwait].
    intros _. split; [reflexivity | exact Hdb].
  - destruct (listening s) eqn:Hon; [|exact Hs].
    apply listening_ready in Hon. unfold onSnapshotNext.
    destruct (productList docs) as [e|pl]; simpl.
    + split; [exact Hav|]. split; [exact Hcat|].
      split; [intros _; exact Hon | discriminate].
    + split; [apply Forall_availableProducts|].
      split; [apply categoriesShape_uniqueCategories|].
      split; [intros _; exact Hon | discriminate].
  - destruct (listening s) eqn:Hon; [|exact Hs].
    apply listening_ready in Hon. simpl.
    split; [exact Hav|]. split; [exact Hcat|].
    split; [intros _; exact Hon | discriminate].
  - destruct (existsb _ _); exact Hs.
Qed.

Lemma Invariant_run (evs : list Event) :
  forall s : State, Invariant s -> Invariant (run s evs).
Proof.
  induction evs as [|ev evs IH]; intros s H; simpl; [exact H|].
  apply IH. now apply Invariant_step.
Qed.

Lemma loading_stays_false (evs : list Event) :
  forall s : State, loading s = false -> loading (run s evs) = false.
Proof.
  induction evs as [|ev evs IH]; intros s H; simpl; [exact H|].
  apply IH. destruct ev as [|docs|e|cat]; simpl.
  - now destruct (db s).
  - destruct (listening s); [|exact H]. unfold onSnapshotNext.
    now destruct (productList docs).
  - now destruct (listening s).
  - now destruct (existsb _ _).
Qed.

(** X8. In every state the mounted component can reach, the stored products
    are all available, and the category list is either still empty (nothing
    delivered yet) or sorted with "All" in it. *)
Theorem reachable_products_and_categories :
  forall (cfg : ConfigRef) (sdk : SdkInit) (evs : list Event),
    let s := run (mounted cfg sdk) evs in
    Forall (fun p => Product.available p = true) (products s)
    /\ (categories s = []
        \/ (In "All" (categories s)
            /\ Sorted (fun a b => String.leb a b = true) (categories s))).
Proof.
  intros cfg sdk evs s.
  destruct (Invariant_run evs (Invariant_mounted cfg sdk)) as (H1 & H2 & _).
  split; [exact H1 | exact H2].
Qed.

(** X9. The spinner ends only through the listener and never comes back:
    in every reachable state, [loading = false] implies that the SDK was
    initialised and the auth callback has run, [loading = true] implies that
    no product and no category has been stored; and once [loading] is false
    it stays false. *)
Theorem loading_ends_once_through_listener :
  forall (cfg : ConfigRef) (sdk : SdkInit) (evs more : list Event),
    let s := run (mounted cfg sdk) evs in
    (loading s = false -> isAuthReady s = true /\ db s = true)
    /\ (loading s = true -> products s = [] /\ categories s = [])
    /\ (loading s = false -> loading (run s more) = false).
Proof.
  intros cfg sdk evs more s.
  destruct (Invariant_run evs (Invariant_mounted cfg sdk))
    as (_ & _ & H3 & H4).
  repeat split; try (now apply H3); try (now apply H4).
  now apply loading_stays_false.
Qed.

(** ** Snapshot deliveries *)

Lemma firstThrow_In (docs : list QueryDocumentSnapshot)
  (d : QueryDocumentSnapshot) (e0 : Js.Error) :
  In d docs -> data d = inl e0 -> exists e, firstThrow docs = Some e.
Proof.
  induction docs as [|doc docs IH]; simpl; [contradiction|].
  intros [->|Hin] Hd.
  - rewrite Hd. eauto.
  - destruct (data doc); eauto.
Qed.

Lemma productList_firstThrow (docs : list QueryDocumentSnapshot) (e : Js.Error) :
  firstThrow docs = Some e -> productList docs = inl e.
Proof.
  induction docs as [|doc docs IH]; simpl; [discriminate|].
  destruct (data doc) as [e'|d]; [now intros [= ->]|].
  intros H. now rewrite (IH H).
Qed.

(** X10. One document whose transformation throws makes the whole delivery
    fail: the products and categories of the previous delivery stay as they
    were, [error] takes the message of the first throwing document,
    [loading] is cleared and the listener is detached. *)
Theorem throwing_document_discards_snapshot :
  forall (s : State) (docs : list QueryDocumentSnapshot)
         (d : QueryDocumentSnapshot) (e0 : Js.Error),
    listening s = true ->
    In d docs ->
    data d = inl e0 ->
    exists e,
      firstThrow docs = Some e
      /\ let s' := step s (SnapshotDelivered docs) in
         products s' = products s
         /\ categories s' = categories s
         /\ error s' = Some (DataFetchFailed (Js.message e))
         /\ loading s' = false
         /\ listening s' = false.
Proof.
  intros s docs d e0 Hon Hin Hd.
  destruct (firstThrow_In docs d Hin Hd) as [e He].
  exists e. split; [exact He|].
  simpl. rewrite Hon. unfold onSnapshotNext.
  rewrite (productList_firstThrow docs He). simpl.
  repeat split. unfold listening. simpl. now rewrite andb_false_r.
Qed.

Lemma throwing_document_discards_snapshot_witness :
  let broken := {| doc_id := "x";
                   data := inl {| Js.message := "bad document" |} |} in
  let s := step Sample.subscribed (SnapshotDelivered Sample.threeDocs) in
  exists e,
    firstThrow (Sample.menuDocs ++ [broken]) = Some e
    /\ let s' := step s (SnapshotDelivered (Sample.menuDocs ++ [broken])) in
       products s' = products s
       /\ categories s' = categories s
       /\ error s' = Some (DataFetchFailed (Js.message e))
       /\ loading s' = false
       /\ listening s' = false.
Proof.
  apply (@throwing_document_discards_snapshot
           (step Sample.subscribed (SnapshotDelivered Sample.threeDocs))
           (Sample.menuDocs
              ++ [ {| doc_id := "x";
                      data := inl {| Js.message := "bad document" |} |} ])
           {| doc_id := "x"; data := inl {| Js.message := "bad document" |} |}
           {| Js.message := "bad document" |}).
  - reflexivity.
  - simpl. right. right. left. reflexivity.
  - reflexivity.
Defined.

(** X11. A delivery without any available product (an empty snapshot
    included) shows the Menu Empty placeholder; the category strip above it
    is still built from the unavailable products, and appears as soon as one
    of them has a category. *)
Theorem unavailable_snapshot_shows_Menu_Empty :
  forall (isFallback : bool) (s : State)
         (docs : list QueryDocumentSnapshot) (raw : list Product.t),
    listening s = true ->
    productList docs = inr raw ->
    Forall (fun p => Product.available p = false) raw ->
    App isFallback (step s (SnapshotDelivered docs))
    = inr {| filterStrip :=
               if 1 <? List.length (uniqueCategories raw)
               then uniqueCategories raw else [];
             main := ViewEmpty isFallback |}.
Proof.
  intros isFallback s docs raw Hon Hraw Hnone.
  pose proof (listening_no_error s Hon) as He.
  simpl. rewrite Hon. unfold onSnapshotNext. rewrite Hraw.
  unfold App, categoryButtons. simpl.
  rewrite (availableProducts_nil_of_unavailable Hnone). simpl.
  unfold renderProductList. now rewrite He.
Qed.

Lemma unavailable_snapshot_shows_Menu_Empty_witness :
  App true (step Sample.subscribed
              (SnapshotDelivered
                 [Sample.document "2" "Cake" (Some "Desserts") (6 # 1) false]))
  = inr {| filterStrip := ["All"; "Desserts"]; main := ViewEmpty true |}.
Proof.
  apply (@unavailable_snapshot_shows_Menu_Empty true Sample.subscribed
           [Sample.document "2" "Cake" (Some "Desserts") (6 # 1) false]
           [Sample.Cake]).
  - reflexivity.
  - reflexivity.
  - repeat constructor.
Defined.

(** ** Configuration and path *)

(** X12. [isFallback] is true exactly when the injected blob is absent,
    empty or rejected by [JSON.parse]; a blob that parses is never the
    fallback, whatever it contains, and then the tenant identifier is
    [appId]. *)
Theorem isFallback_iff :
  forall (JSON_parse : string -> Js.Error + Json.t) (g : Globals),
    (isFallback JSON_parse g = true <->
     __firebase_config g = None
     \/ __firebase_config g = Some ""
     \/ (exists blob e, __firebase_config g = Some blob
                        /\ JSON_parse blob = inl e))
    /\ (forall blob j,
          __firebase_config g = Some blob -> blob <> "" ->
          JSON_parse blob = inr j ->
          firebaseConfig JSON_parse g = Parsed j
          /\ isFallback JSON_parse g = false
          /\ dataAppId JSON_parse g = appId g).
Proof.
  intros JSON_parse g. unfold dataAppId, isFallback, firebaseConfig. split.
  - destruct (__firebase_config g) as [blob|]; [|now split; auto].
    unfold Js.truthy. destruct (String.eqb_spec blob "") as [->|Hne]; simpl.
    + split; auto.
    + destruct (JSON_parse blob) as [e|j] eqn:Hparse; simpl; split.
      * intros _. right. right. now exists blob, e.
      * reflexivity.
      * discriminate.
      * intros [H|[H|(b & e & H & He)]];
          [discriminate H | congruence | injection H as <-; congruence].
  - intros blob j -> Hne Hparse. unfold Js.truthy.
    destruct (String.eqb_spec blob ""); [contradiction|]. simpl.
    rewrite Hparse. simpl. auto.
Qed.

Lemma append_cancel_r (a b s : string) :
  (a ++ s = b ++ s)%string -> a = b.
Proof.
  assert (Hlen : forall x y : string,
             String.length (x ++ y) = String.length x + String.length y).
  { induction x as [|c x IH]; intros y; simpl; [reflexivity|].
    now rewrite IH. }
  revert b. induction a as [|c a IH]; intros [|c' b] H; simpl in H.
  - reflexivity.
  - apply (f_equal String.length) in H. simpl in H. rewrite Hlen in H. lia.
  - apply (f_equal String.length) in H. simpl in H. rewrite Hlen in H. lia.
  - injection H as -> H. f_equal. now apply IH.
Qed.

(** X13. Distinct tenant identifiers give distinct collection paths. *)
Theorem getProductCollectionPath_injective :
  forall a b : string,
    getProductCollectionPath a = getProductCollectionPath b -> a = b.
Proof.
  intros a b H. unfold getProductCollectionPath in H. simpl in H.
  injection H as H. now apply append_cancel_r in H.
Qed.

Lemma getProductCollectionPath_injective_witness :
  DEFAULT_APP_ID = "fresh-eats-admin-dev".
Proof.
  apply (@getProductCollectionPath_injective DEFAULT_APP_ID
           "fresh-eats-admin-dev").
  reflexivity.
Defined.

(** ** The category filter list *)

Lemma string_leb_refl (a : string) : String.leb a a = true.
Proof.
  unfold String.leb.
  assert (H : String.compare a a = Eq).
  { induction a as [|x a IH]; simpl; [reflexivity|].
    unfold Ascii.compare. now rewrite N.compare_refl. }
  now rewrite H.
Qed.

Lemma string_leb_trans (a : string) :
  forall b c : string,
    String.leb a b = true -> String.leb b c = true -> String.leb a c = true.
Proof.
  unfold String.leb.
  induction a as [|x a IH]; intros [|y b] [|z c]; simpl;
    try discriminate; try reflexivity.
  unfold Ascii.compare.
  destruct (N.compare_spec (N_of_ascii x) (N_of_ascii y)) as [Hxy|Hxy|Hxy];
    destruct (N.compare_spec (N_of_ascii y) (N_of_ascii z)) as [Hyz|Hyz|Hyz];
    destruct (N.compare_spec (N_of_ascii x) (N_of_ascii z)) as [Hxz|Hxz|Hxz];
    intros H1 H2; try reflexivity; try discriminate; try lia.
  eapply IH; eassumption.
Qed.

Lemma In_product_categories (c : string) (raw : list Product.t) :
  In c (Js.Set_of (Js.filter_Boolean (map Product.category raw))) <->
  c <> "" /\ exists p, In p raw /\ Product.category p = Some c.
Proof.
  rewrite In_Set_of, In_filter_Boolean, in_map_iff. split.
  - intros [(p & Hc & Hp) Hne]. split; [exact Hne|]. now exists p.
  - intros [Hne (p & Hp & Hc)]. split; [|exact Hne]. now exists p.
Qed.

(** X14. The category filter list is free of duplicates exactly when no
    product of the snapshot has the category "All". *)
Theorem uniqueCategories_NoDup_iff :
  forall raw : list Product.t,
    NoDup (uniqueCategories raw) <->
    (forall p, In p raw -> Product.category p <> Some "All").
Proof.
  intros raw. unfold uniqueCategories, Js.sort_strings.
  set (cats := Js.Set_of (Js.filter_Boolean (map Product.category raw))).
  assert (Hperm : Permutation (Js.sort String.leb ("All" :: cats))
                    ("All" :: cats)) by apply Permutation_sort.
  split.
  - intros Hnd p Hp Hc.
    apply (Permutation_NoDup Hperm) in Hnd.
    inversion Hnd as [|? ? Hnotin _]; subst. apply Hnotin.
    apply In_product_categories. split; [discriminate|]. now exists p.
  - intros Hnone. apply (Permutation_NoDup (Permutation_sym Hperm)).
    constructor; [|apply NoDup_Set_of].
    intros Hin. apply In_product_categories in Hin as [_ (p & Hp & Hc)].
    exact (Hnone p Hp Hc).
Qed.

(** X15. "All" heads the category filter list exactly when no non-empty
    product category sorts before "All" in code-unit order. *)
Theorem uniqueCategories_All_first_iff :
  forall raw : list Product.t,
    hd_error (uniqueCategories raw) = Some "All" <->
    (forall p c, In p raw -> Product.category p = Some c -> c <> "" ->
                 String.leb "All" c = true).
Proof.
  intros raw. split.
  - intros Hhd p c Hp Hc Hne.
    assert (Hin : In c (uniqueCategories raw)).
    { apply In_uniqueCategories. right. split; [exact Hne|]. now exists p. }
    pose proof (Sorted_sort_strings
                  ("All" :: Js.Set_of
                              (Js.filter_Boolean
                                 (map Product.category raw)))) as Hsorted.
    fold (uniqueCategories raw) in Hsorted.
    destruct (uniqueCategories raw) as [|h rest]; [discriminate|].
    injection Hhd as ->.
    apply Sorted_StronglySorted in Hsorted;
      [|intros x y z; apply string_leb_trans].
    apply StronglySorted_inv in Hsorted as [_ Hall].
    destruct Hin as [<-|Hin]; [apply string_leb_refl|].
    rewrite Forall_forall in Hall. now apply Hall.
  - intros Hle. unfold uniqueCategories, Js.sort_strings, Js.sort. simpl.
    fold (Js.sort String.leb
            (Js.Set_of (Js.filter_Boolean (map Product.category raw)))).
    destruct (Js.sort String.leb _) as [|y t] eqn:Hsort; [reflexivity|].
    simpl.
    assert (Hy : String.leb "All" y = true).
    { assert (Hin : In y (Js.sort String.leb
                            (Js.Set_of (Js.filter_Boolean
                                          (map Product.category raw)))))
        by (rewrite Hsort; now left).
      apply In_sort in Hin.
      apply In_product_categories in Hin as [Hne (p & Hp & Hc)].
      exact (Hle p y Hp Hc Hne). }
    now rewrite Hy.
Qed.

Lemma categoryButtons_after_delivery (s : State)
  (docs : list QueryDocumentSnapshot) (raw : list Product.t) :
  listening s = true ->
  productList docs = inr raw ->
  let s' := step s (SnapshotDelivered docs) in
  (categoryButtons s' <> [] <->
   exists p c, In p raw /\ Product.category p = Some c /\ c <> "")
  /\ (categoryButtons s' <> [] -> categoryButtons s' = uniqueCategories raw).
Proof.
  intros Hon Hraw s'.
  assert (Hcats : categories s' = uniqueCategories raw).
  { subst s'. simpl. rewrite Hon. unfold onSnapshotNext. now rewrite Hraw. }
  unfold categoryButtons. rewrite Hcats.
  set (cats := Js.Set_of (Js.filter_Boolean (map Product.category raw))).
  assert (Hlen : List.length (uniqueCategories raw) = S (List.length cats)).
  { exact (Permutation_length
             (Permutation_sort String.leb ("All" :: cats))). }
  rewrite Hlen. split.
  - destruct cats as [|c cats'] eqn:Hc; simpl.
    + split; [intros H; now contradiction H|].
      intros (p & c & Hp & Hcat & Hne). exfalso.
      assert (Hin : In c cats).
      { apply In_product_categories. split; [exact Hne|]. now exists p. }
      rewrite Hc in Hin. contradiction.
    + split; [intros _|].
      * assert (Hin : In c cats) by (rewrite Hc; now left).
        apply In_product_categories in Hin as [Hne (p & Hp & Hcat)].
        now exists p, c.
      * intros _ H. apply (f_equal (@List.length string)) in H.
        rewrite Hlen in H. discriminate.
  - destruct (1 <? S (List.length cats)); [reflexivity|].
    intros H. now contradiction H.
Qed.

(** X16. After a successful delivery, every render of [App] that completes
    shows the category strip exactly when some product of the snapshot,
    available or not, has a non-empty category, and the strip then holds
    the whole category list.  The render completes whenever no product
    shown under the active category is grouped under a member of
    [Object.prototype]. *)
Theorem category_strip_shown_iff :
  forall (isFallback : bool) (s : State)
         (docs : list QueryDocumentSnapshot) (raw : list Product.t),
    listening s = true ->
    productList docs = inr raw ->
    let s' := step s (SnapshotDelivered docs) in
    (forall page : Page,
        App isFallback s' = inr page ->
        (filterStrip page <> [] <->
         exists p c, In p raw /\ Product.category p = Some c /\ c <> "")
        /\ (filterStrip page <> [] -> filterStrip page = uniqueCategories raw))
    /\ ((forall p,
           In p (filteredProducts (products s') (activeCategory s')) ->
           JsObject.inherited (groupName p) = false) ->
        exists page : Page, App isFallback s' = inr page).
Proof.
  intros isFallback s docs raw Hon Hraw s'.
  pose proof (categoryButtons_after_delivery s docs Hon Hraw) as Hbtn.
  fold s' in Hbtn. split.
  - intros page. unfold App.
    destruct (productsGroupedByCategory _) as [e|g]; [discriminate|].
    intros [= <-]. exact Hbtn.
  - intros Hplain.
    destruct (productsGroupedByCategory_completes _ Hplain) as [g Hg].
    unfold App. rewrite Hg. eauto.
Qed.

Lemma category_strip_shown_iff_witness :
  let s' := step Sample.subscribed (SnapshotDelivered Sample.menuDocs) in
  App true s'
  = inr {| filterStrip := ["All"; "Desserts"; "Starters"];
           main := ViewPopulated [("Starters", [Sample.Soup])] |}
  /\ (forall page : Page,
        App true s' = inr page ->
        (filterStrip page <> [] <->
         exists p c, In p [Sample.Soup; Sample.Cake]
                     /\ Product.category p = Some c /\ c <> "")
        /\ (filterStrip page <> [] ->
            filterStrip page = uniqueCategories [Sample.Soup; Sample.Cake]))
  /\ ((forall p,
         In p (filteredProducts (products s') (activeCategory s')) ->
         JsObject.inherited (groupName p) = false) ->
      exists page : Page, App true s' = inr page).
Proof.
  split; [reflexivity|].
  apply (@category_strip_shown_iff true Sample.subscribed Sample.menuDocs
           [Sample.Soup; Sample.Cake]); reflexivity.
Defined.

(** ** From mount to the first page *)

Lemma mounted_usable (cfg : ConfigRef) :
  usable cfg = true -> mounted cfg SdkReady = setDb initialState.
Proof.
  unfold mounted, initEffect, usable. rewrite <- negb_andb.
  now intros ->.
Qed.

(** X17. The snapshot transformation either fails with the error of the
    first throwing document, or yields one product per document, in
    snapshot order, each built from its document. *)
Theorem productList_per_document :
  forall docs : list QueryDocumentSnapshot,
    match firstThrow docs with
    | Some e => productList docs = inl e
    | None =>
        exists raw,
          productList docs = inr raw
          /\ Forall2 (fun doc p =>
                        exists d, data doc = inr d
                                  /\ p = toProduct (doc_id doc) d)
                     docs raw
    end.
Proof.
  induction docs as [|doc docs IH]; simpl.
  - exists []. split; [reflexivity | constructor].
  - destruct (data doc) as [e|d] eqn:Hd; [reflexivity|].
    destruct (firstThrow docs) as [e|].
    + now rewrite IH.
    + destruct IH as (raw & -> & Hall).
      exists (toProduct (doc_id doc) d :: raw). split; [reflexivity|].
      constructor; [now exists d | exact Hall].
Qed.

(** X18. The guard of the listener effect, [isAuthReady && db && !error],
    never passes right after mount; after the auth callback it passes
    exactly when the configuration check passed and the Firebase
    initialisation returned. *)
Theorem listener_guard_passes_iff :
  forall (cfg : ConfigRef) (sdk : SdkInit),
    listening (mounted cfg sdk) = false
    /\ (listening (step (mounted cfg sdk) AuthStateChanged) = true <->
        usable cfg = true /\ sdk = SdkReady).
Proof.
  intros cfg sdk. unfold mounted, initEffect, usable.
  rewrite <- negb_andb.
  destruct (Json.truthy (deref cfg) && Json.has_projectId (deref cfg));
    [destruct sdk as [|e]|]; simpl.
  - split; [reflexivity|]. split; auto.
  - split; [reflexivity|]. split; [discriminate|]. intros [_ H]. discriminate.
  - split; [reflexivity|]. split; [discriminate|]. intros [H _]. discriminate.
Qed.

Lemma step_selection (s : State) (ev : Event) :
  activeCategory s <> "" /\ ~ In "" (categories s) ->
  activeCategory (step s ev) <> "" /\ ~ In "" (categories (step s ev)).
Proof.
  intros [Hact Hcats]. destruct ev as [|docs|e|cat]; simpl.
  - now destruct (db s).
  - destruct (listening s); [|auto]. unfold onSnapshotNext.
    destruct (productList docs) as [e|pl]; simpl; [auto|].
    split; [exact Hact|].
    rewrite In_uniqueCategories. intros [H|[H _]];
      [discriminate | now apply H].
  - now destruct (listening s).
  - destruct (existsb (String.eqb cat) (categoryButtons s)) eqn:Hbtn;
      [|auto].
    simpl. split; [|exact Hcats].
    apply existsb_exists in Hbtn as (c & Hc & Heq).
    apply String.eqb_eq in Heq as <-.
    unfold categoryButtons in Hc.
    destruct (1 <? List.length (categories s)); [|contradiction].
    intros ->. contradiction.
Qed.

(** X19. In every state the mounted component can reach, the category list
    never contains the empty string and the active category is never the
    empty string: no selection isolates the products without a category. *)
Theorem selection_never_empty :
  forall (cfg : ConfigRef) (sdk : SdkInit) (evs : list Event),
    let s := run (mounted cfg sdk) evs in
    activeCategory s <> "" /\ ~ In "" (categories s).
Proof.
  intros cfg sdk evs.
  assert (H0 : activeCategory (mounted cfg sdk) <> ""
               /\ ~ In "" (categories (mounted cfg sdk))).
  { unfold mounted, initEffect.
    destruct (_ || _); [|destruct sdk]; simpl; split;
      (discriminate || tauto). }
  revert H0. generalize (mounted cfg sdk).
  induction evs as [|ev evs IH]; intros s H; simpl; [exact H|].
  apply IH. now apply step_selection.
Qed.

(** X20. From mount to the first page: with a configuration that passes the
    check and an initialised SDK, after the auth callback a delivery holding
    at least one available product, none grouped under a member of
    [Object.prototype], renders the Populated view with every available
    product of the snapshot grouped, under the strip of all categories. *)
Theorem first_delivery_populates :
  forall (isFallback : bool) (cfg : ConfigRef)
         (docs : list QueryDocumentSnapshot) (raw : list Product.t),
    usable cfg = true ->
    productList docs = inr raw ->
    availableProducts raw <> [] ->
    (forall p, In p (availableProducts raw) ->
               JsObject.inherited (groupName p) = false) ->
    let s := run (mounted cfg SdkReady)
               [AuthStateChanged; SnapshotDelivered docs] in
    exists grouped : Grouped,
      productsGroupedByCategory (availableProducts raw) = inr grouped
      /\ App isFallback s
         = inr {| filterStrip :=
                    if 1 <? List.length (uniqueCategories raw)
                    then uniqueCategories raw else [];
                  main := ViewPopulated (JsObject.entries grouped) |}
      /\ (forall p, In p raw -> Product.available p = true ->
                    exists items,
                      In (groupName p, items) (JsObject.entries grouped)
                      /\ In p items).
Proof.
  intros isFallback cfg docs raw Hcfg Hraw Hsome Hplain s.
  destruct (productsGroupedByCategory_completes _ Hplain) as [grouped Hg].
  exists grouped. split; [exact Hg|]. split.
  - subst s. rewrite (mounted_usable cfg Hcfg). simpl.
    unfold onSnapshotNext. rewrite Hraw.
    unfold App, categoryButtons. simpl.
    rewrite filteredProducts_All, Hg.
    unfold renderProductList. simpl.
    destruct (availableProducts raw); [contradiction|reflexivity].
  - intros p Hp Hav.
    assert (Hshown : In p (availableProducts raw)).
    { unfold availableProducts. apply filter_In. auto. }
    unfold productsGroupedByCategory in Hg.
    destruct (reduce_holds _ _ p Hg Hshown) as (items & Hown & Hin).
    exists items. split; [|exact Hin].
    apply In_entries. now apply In_getOwn.
Qed.

Lemma first_delivery_populates_witness :
  let s := run (mounted Fallback SdkReady)
             [AuthStateChanged; SnapshotDelivered Sample.menuDocs] in
  exists grouped : Grouped,
    productsGroupedByCategory (availableProducts [Sample.Soup; Sample.Cake])
    = inr grouped
    /\ App true s
       = inr {| filterStrip :=
                  if 1 <? List.length
                            (uniqueCategories [Sample.Soup; Sample.Cake])
                  then uniqueCategories [Sample.Soup; Sample.Cake] else [];
                main := ViewPopulated (JsObject.entries grouped) |}
    /\ (forall p, In p [Sample.Soup; Sample.Cake] ->
                  Product.available p = true ->
                  exists items,
                    In (groupName p, items) (JsObject.entries grouped)
                    /\ In p items).
Proof.
  apply (@first_delivery_populates true Fallback Sample.menuDocs
           [Sample.Soup; Sample.Cake]).
  - reflexivity.
  - reflexivity.
  - discriminate.
  - intros p [<-|[]]. reflexivity.
Defined.
